(** * modulo-three-advance: the generic finite-automaton engine and the
      modulo-three calculator built on it.

    Sources embedded here:
    - [src/fsm/fsm.go]            package fsm: [Run], [NewFiniteAutomaton],
                                  [IsAccepting], [ValidateInput];
    - [src/mod3/modthree.go]      package mod3: [GetModThreeConfig],
                                  [NewModThreeCalculator], [Calculate];
    - [src/unnamed/part_000]      package mod3: [ModThreeFA],
                                  [StateToRemainder], [ModThree], [modThree];
    - the engine of package mod3 itself (struct with slice fields, [Run]),
      whose text is appended to [src/mod3/fsm_test.go].

    A Go [string] is a sequence of bytes: it is a Rocq [string].  A Go
    [map[string]T] is a [gmap string T]; a Go [int] result is a [Z]; a Go
    [(value, error)] result is a pair whose second component is an
    [option error], [None] standing for [nil]. *)

From Stdlib Require Import ZArith Lia List Ascii String.
From stdpp Require Import gmap strings list fin_maps.

Local Open Scope string_scope.

(** ** Go strings: runes, [string(rune)], [strings.TrimSpace] *)

Module gostring.

(** A rune is a Go [int32] holding a Unicode code point. *)
Definition rune := Z.

Definition byte_val (c : ascii) : Z := Z.of_N (N_of_ascii c).

Definition chr (b : Z) : ascii := ascii_of_N (Z.to_N b).

(** [utf8.RuneError], U+FFFD. *)
Definition RuneError : rune := 65533%Z.

(** The table [first] of [unicode/utf8] for a leading byte [>= 0x80]:
    the length of the encoding and the accepted range of the second
    byte; [None] is the entry [xx] (not a leading byte). *)
Definition lead (s0 : Z) : option (nat * Z * Z) :=
  if (s0 <? 194)%Z then None                           (* 80..C1 *)
  else if (s0 <=? 223)%Z then Some (2%nat, 128, 191)%Z (* C2..DF *)
  else if (s0 =? 224)%Z then Some (3%nat, 160, 191)%Z  (* E0 *)
  else if (s0 <=? 236)%Z then Some (3%nat, 128, 191)%Z (* E1..EC *)
  else if (s0 =? 237)%Z then Some (3%nat, 128, 159)%Z  (* ED *)
  else if (s0 <=? 239)%Z then Some (3%nat, 128, 191)%Z (* EE..EF *)
  else if (s0 =? 240)%Z then Some (4%nat, 144, 191)%Z  (* F0 *)
  else if (s0 <=? 243)%Z then Some (4%nat, 128, 191)%Z (* F1..F3 *)
  else if (s0 =? 244)%Z then Some (4%nat, 128, 143)%Z  (* F4 *)
  else None.                                           (* F5..FF *)

(** A continuation byte, [locb <= b <= hicb]. *)
Definition is_cont (b : Z) : bool := ((128 <=? b) && (b <=? 191))%Z.

Definition rune2 (s0 s1 : Z) : rune :=
  Z.lor (Z.shiftl (Z.land s0 31) 6) (Z.land s1 63).
Definition rune3 (s0 s1 s2 : Z) : rune :=
  Z.lor (Z.lor (Z.shiftl (Z.land s0 15) 12) (Z.shiftl (Z.land s1 63) 6))
        (Z.land s2 63).
Definition rune4 (s0 s1 s2 s3 : Z) : rune :=
  Z.lor (Z.lor (Z.lor (Z.shiftl (Z.land s0 7) 18)
                      (Z.shiftl (Z.land s1 63) 12))
               (Z.shiftl (Z.land s2 63) 6))
        (Z.land s3 63).

(** The runes that [for _, char := range s] yields, in order.  Each
    iteration decodes one UTF-8 sequence at the current offset and
    advances by its width; a byte that does not start a well-formed
    sequence (overlong forms, surrogates and values above U+10FFFF
    included) yields [RuneError] and advances by one byte. *)
Fixpoint runes (s : string) : list rune :=
  match s with
  | EmptyString => []
  | String c0 t0 =>
    let s0 := byte_val c0 in
    if (s0 <? 128)%Z then s0 :: runes t0
    else
      match lead s0 with
      | None => RuneError :: runes t0
      | Some (sz, lo, hi) =>
        match t0 with
        | EmptyString => RuneError :: runes t0
        | String c1 t1 =>
          let s1 := byte_val c1 in
          if ((s1 <? lo) || (hi <? s1))%Z then RuneError :: runes t0
          else if (sz <=? 2)%nat then rune2 s0 s1 :: runes t1
          else
            match t1 with
            | EmptyString => RuneError :: runes t0
            | String c2 t2 =>
              let s2 := byte_val c2 in
              if negb (is_cont s2) then RuneError :: runes t0
              else if (sz <=? 3)%nat then rune3 s0 s1 s2 :: runes t2
              else
                match t2 with
                | EmptyString => RuneError :: runes t0
                | String c3 t3 =>
                  let s3 := byte_val c3 in
                  if negb (is_cont s3) then RuneError :: runes t0
                  else rune4 s0 s1 s2 s3 :: runes t3
                end
            end
        end
      end
  end.

(** The conversion [string(r)] of a rune: its UTF-8 encoding, and the
    encoding of [RuneError] for a value that is not a valid code point
    (negative, above U+10FFFF, or a surrogate). *)
Definition string_of_rune (r : rune) : string :=
  if ((0 <=? r) && (r <=? 127))%Z then
    String (chr r) EmptyString
  else if ((0 <=? r) && (r <=? 2047))%Z then
    String (chr (Z.lor 192 (Z.shiftr r 6)))
      (String (chr (Z.lor 128 (Z.land r 63))) EmptyString)
  else if ((r <? 0) || (1114111 <? r) || ((55296 <=? r) && (r <=? 57343)))%Z then
    String (chr 239) (String (chr 191) (String (chr 189) EmptyString))
  else if (r <=? 65535)%Z then
    String (chr (Z.lor 224 (Z.shiftr r 12)))
      (String (chr (Z.lor 128 (Z.land (Z.shiftr r 6) 63)))
         (String (chr (Z.lor 128 (Z.land r 63))) EmptyString))
  else
    String (chr (Z.lor 240 (Z.shiftr r 18)))
      (String (chr (Z.lor 128 (Z.land (Z.shiftr r 12) 63)))
         (String (chr (Z.lor 128 (Z.land (Z.shiftr r 6) 63)))
            (String (chr (Z.lor 128 (Z.land r 63))) EmptyString))).

(** [unicode.IsSpace]. *)
Definition IsSpace (r : rune) : bool :=
  ((9 <=? r) && (r <=? 13) || (r =? 32) || (r =? 133) || (r =? 160)
   || (r =? 5760) || (8192 <=? r) && (r <=? 8202)
   || (r =? 8232) || (r =? 8233) || (r =? 8239) || (r =? 8287)
   || (r =? 12288))%Z.

Fixpoint dropWhile (p : rune -> bool) (rs : list rune) : list rune :=
  match rs with
  | [] => []
  | r :: rest => if p r then dropWhile p rest else rs
  end.

(** [strings.TrimSpace], on the characters of its argument: the leading
    and the trailing white space is removed.  The callers only compare
    the result with the empty string, which it is exactly when every
    character is white space. *)
Definition TrimSpace (rs : list rune) : list rune :=
  rev (dropWhile IsSpace (rev (dropWhile IsSpace rs))).

(** The test [strings.TrimSpace(s) == ""]. *)
Definition trimsToEmpty (s : string) : bool :=
  match TrimSpace (runes s) with
  | [] => true
  | _ :: _ => false
  end.

End gostring.

Import gostring.

(** ** Errors

    The values built by [fmt.Errorf] in both packages, one constructor
    per format string, carrying the format's arguments. *)

Inductive error : Type :=
  (* "FSM Error: Transition rule missing for state %s" *)
  | ErrMissingStateRow (state : string)
  (* "FSM Error: Invalid input symbol '%s' for state %s" *)
  | ErrUnknownSymbol (symbol state : string)
  (* "FSM Config Error: Initial state '%s' is not defined in the set of States (Q)" *)
  | ErrInitialState (state : string)
  (* "FSM Config Error: Accepting state '%s' is not defined in the set of States (Q)" *)
  | ErrAcceptingState (state : string)
  (* "FSM Config Error: Missing transition rules for state '%s' (not in δ)" *)
  | ErrMissingRules (state : string)
  (* "FSM Config Error: Missing transition for state '%s' on symbol '%s'" *)
  | ErrMissingTransition (state symbol : string)
  (* "FSM Config Error: Transition from '%s' on '%s' leads to undefined state '%s'" *)
  | ErrUndefinedTarget (state symbol target : string)
  (* "failed to initialize FSM engine: %w" *)
  | ErrInitEngine (cause : error)
  (* "FSM execution ended in non-accepting state: %s" *)
  | ErrNonAccepting (state : string)
  (* "FSM execution resulted in unknown state: %s" *)
  | ErrUnknownState (state : string).

(** The two failures of [Run], as opposed to every other error. *)
Definition is_execution_error (e : error) : bool :=
  match e with
  | ErrMissingStateRow _ | ErrUnknownSymbol _ _ => true
  | _ => false
  end.

(** ** Package fsm ([src/fsm/fsm.go]) *)

Module fsm.

(** The [Automaton] interface. *)
Class Automaton (A : Type) : Type := {
  automaton_Run : A -> string -> string * option error;
  automaton_IsAccepting : A -> string -> bool;
  automaton_ValidateInput : A -> string -> bool
}.

(** The 5-tuple (Q, Σ, q0, F, δ). *)
Record FiniteAutomaton : Type := {
  States : gmap string bool;
  Alphabet : gmap string bool;
  InitialState : string;
  AcceptingStates : gmap string bool;
  Transitions : gmap string (gmap string string)
}.

(** The body of the [for ... range input] loop of [Run], over the runes
    still to be read. *)
Fixpoint run_loop (transitions : gmap string (gmap string string))
    (currentState : string) (chars : list rune) : string * option error :=
  match chars with
  | [] => (currentState, None)
  | char :: rest =>
    let symbol := string_of_rune char in
    match transitions !! currentState with
    | None => ("", Some (ErrMissingStateRow currentState))
    | Some transitionsFromCurrent =>
      match transitionsFromCurrent !! symbol with
      | None => ("", Some (ErrUnknownSymbol symbol currentState))
      | Some nextState => run_loop transitions nextState rest
      end
    end
  end.

Definition Run (fa : FiniteAutomaton) (input : string) : string * option error :=
  run_loop (Transitions fa) (InitialState fa) (runes input).

(** [stateSet], [alphaSet], [acceptingSet]: one [m[s] = true] per
    element of the slice. *)
Definition make_set (l : list string) : gmap string bool :=
  foldl (fun m s => <[s := true]> m) ∅ l.

(** Step 2 of [NewFiniteAutomaton]: the first accepting state that is
    not a key of [stateSet]. *)
Fixpoint check_accepting (stateSet : gmap string bool)
    (acceptingStates : list string) : option error :=
  match acceptingStates with
  | [] => None
  | as_ :: rest =>
    match stateSet !! as_ with
    | None => Some (ErrAcceptingState as_)
    | Some _ => check_accepting stateSet rest
    end
  end.

(** Step 3, inner loop: the row of [currentState] over the alphabet. *)
Fixpoint check_row (stateSet : gmap string bool) (currentState : string)
    (transitionsFromCurrent : gmap string string)
    (alphabet : list string) : option error :=
  match alphabet with
  | [] => None
  | symbol :: rest =>
    match transitionsFromCurrent !! symbol with
    | None => Some (ErrMissingTransition currentState symbol)
    | Some nextState =>
      match stateSet !! nextState with
      | None => Some (ErrUndefinedTarget currentState symbol nextState)
      | Some _ => check_row stateSet currentState transitionsFromCurrent rest
      end
    end
  end.

(** Step 3, outer loop over the declared states. *)
Fixpoint check_transitions (stateSet : gmap string bool)
    (alphabet : list string)
    (transitions : gmap string (gmap string string))
    (states : list string) : option error :=
  match states with
  | [] => None
  | currentState :: rest =>
    match transitions !! currentState with
    | None => Some (ErrMissingRules currentState)
    | Some transitionsFromCurrent =>
      match check_row stateSet currentState transitionsFromCurrent alphabet with
      | Some e => Some e
      | None => check_transitions stateSet alphabet transitions rest
      end
    end
  end.

Definition NewFiniteAutomaton (states alphabet : list string)
    (initialState : string) (acceptingStates : list string)
    (transitions : gmap string (gmap string string))
    : option FiniteAutomaton * option error :=
  let stateSet := make_set states in
  let alphaSet := make_set alphabet in
  let acceptingSet := make_set acceptingStates in
  let fa := {| States := stateSet;
               Alphabet := alphaSet;
               InitialState := initialState;
               AcceptingStates := acceptingSet;
               Transitions := transitions |} in
  match stateSet !! initialState with
  | None => (None, Some (ErrInitialState initialState))
  | Some _ =>
    match check_accepting stateSet acceptingStates with
    | Some e => (None, Some e)
    | None =>
      match check_transitions stateSet alphabet transitions states with
      | Some e => (None, Some e)
      | None => (Some fa, None)
      end
    end
  end.

Definition IsAccepting (fa : FiniteAutomaton) (state : string) : bool :=
  match AcceptingStates fa !! state with
  | None => false
  | Some _ => true
  end.

Fixpoint validate_loop (alphabet : gmap string bool) (chars : list rune) : bool :=
  match chars with
  | [] => true
  | char :: rest =>
    let symbol := string_of_rune char in
    match alphabet !! symbol with
    | None => false
    | Some _ => validate_loop alphabet rest
    end
  end.

Definition ValidateInput (fa : FiniteAutomaton) (input : string) : bool :=
  validate_loop (Alphabet fa) (runes input).

#[global] Instance FiniteAutomaton_Automaton : Automaton FiniteAutomaton := {
  automaton_Run := Run;
  automaton_IsAccepting := IsAccepting;
  automaton_ValidateInput := ValidateInput
}.

End fsm.

(** ** Package mod3 *)

Module mod3.

Local Open Scope Z_scope.

Definition StateS0 : string := "S0".
Definition StateS1 : string := "S1".
Definition StateS2 : string := "S2".
Definition Symbol0 : string := "0".
Definition Symbol1 : string := "1".

(** *** The package's own engine (text appended to [src/mod3/fsm_test.go]) *)

(** Its [Automaton] interface has the single method [Run]. *)
Class Automaton (A : Type) : Type := {
  automaton_Run : A -> string -> string * option error
}.

(** Its [FiniteAutomaton] keeps the slices it is given; [modthree.go]
    uses the same struct as the configuration value. *)
Record FiniteAutomaton : Type := {
  States : list string;
  Alphabet : list string;
  InitialState : string;
  AcceptingStates : list string;
  Transitions : gmap string (gmap string string)
}.

Fixpoint run_loop (transitions : gmap string (gmap string string))
    (currentState : string) (chars : list rune) : string * option error :=
  match chars with
  | [] => (currentState, None)
  | char :: rest =>
    let symbol := string_of_rune char in
    match transitions !! currentState with
    | None => ("", Some (ErrMissingStateRow currentState))
    | Some transitionsFromCurrent =>
      match transitionsFromCurrent !! symbol with
      | None => ("", Some (ErrUnknownSymbol symbol currentState))
      | Some nextState => run_loop transitions nextState rest
      end
    end
  end.

Definition Run (fa : FiniteAutomaton) (input : string) : string * option error :=
  run_loop (Transitions fa) (InitialState fa) (runes input).

#[global] Instance FiniteAutomaton_Automaton : Automaton FiniteAutomaton := {
  automaton_Run := Run
}.

(** The package's own validating constructor.  It keeps the slices in
    the automaton and builds only [stateSet], a [map[string]struct{}]. *)
Definition make_stateSet (states : list string) : gmap string unit :=
  foldl (fun m s => <[s := tt]> m) ∅ states.

Fixpoint check_accepting (stateSet : gmap string unit)
    (acceptingStates : list string) : option error :=
  match acceptingStates with
  | [] => None
  | as_ :: rest =>
    match stateSet !! as_ with
    | None => Some (ErrAcceptingState as_)
    | Some _ => check_accepting stateSet rest
    end
  end.

Fixpoint check_row (stateSet : gmap string unit) (currentState : string)
    (transitionsFromCurrent : gmap string string)
    (alphabet : list string) : option error :=
  match alphabet with
  | [] => None
  | symbol :: rest =>
    match transitionsFromCurrent !! symbol with
    | None => Some (ErrMissingTransition currentState symbol)
    | Some nextState =>
      match stateSet !! nextState with
      | None => Some (ErrUndefinedTarget currentState symbol nextState)
      | Some _ => check_row stateSet currentState transitionsFromCurrent rest
      end
    end
  end.

Fixpoint check_transitions (stateSet : gmap string unit)
    (alphabet : list string)
    (transitions : gmap string (gmap string string))
    (states : list string) : option error :=
  match states with
  | [] => None
  | currentState :: rest =>
    match transitions !! currentState with
    | None => Some (ErrMissingRules currentState)
    | Some transitionsFromCurrent =>
      match check_row stateSet currentState transitionsFromCurrent alphabet with
      | Some e => Some e
      | None => check_transitions stateSet alphabet transitions rest
      end
    end
  end.

Definition NewFiniteAutomaton (states alphabet : list string)
    (initialState : string) (acceptingStates : list string)
    (transitions : gmap string (gmap string string))
    : option FiniteAutomaton * option error :=
  let fa := {| States := states;
               Alphabet := alphabet;
               InitialState := initialState;
               AcceptingStates := acceptingStates;
               Transitions := transitions |} in
  let stateSet := make_stateSet states in
  match stateSet !! initialState with
  | None => (None, Some (ErrInitialState initialState))
  | Some _ =>
    match check_accepting stateSet acceptingStates with
    | Some e => (None, Some e)
    | None =>
      match check_transitions stateSet alphabet transitions states with
      | Some e => (None, Some e)
      | None => (Some fa, None)
      end
    end
  end.

(** *** [src/unnamed/part_000]: the [ModThree] pipeline *)

Definition ModThreeFA : FiniteAutomaton := {|
  States := [StateS0; StateS1; StateS2];
  Alphabet := [Symbol0; Symbol1];
  InitialState := StateS0;
  AcceptingStates := [StateS0; StateS1; StateS2];
  Transitions :=
    <[StateS0 := <[Symbol0 := StateS0]> (<[Symbol1 := StateS1]> ∅)]>
    (<[StateS1 := <[Symbol0 := StateS2]> (<[Symbol1 := StateS0]> ∅)]>
    (<[StateS2 := <[Symbol0 := StateS1]> (<[Symbol1 := StateS2]> ∅)]> ∅))
|}.

Definition StateToRemainder (state : string) : Z :=
  if String.eqb state StateS0 then 0
  else if String.eqb state StateS1 then 1
  else if String.eqb state StateS2 then 2
  else (-1).

Definition modThree {A : Type} `{Automaton A} (fa : A) (input : string) : Z :=
  if trimsToEmpty input then 0
  else
    let '(finalState, err) := automaton_Run fa input in
    match err with
    | Some _ => (-1)
    | None => StateToRemainder finalState
    end.

Definition ModThree (input : string) : Z := modThree ModThreeFA input.

(** *** [src/mod3/modthree.go]: the calculator *)

(** The calculator holds an engine behind the [Automaton] interface and
    calls its methods [Run] and [IsAccepting].  Of the engines in the
    sources, the one of [src/fsm/fsm.go] has both methods and the
    validating constructor [NewFiniteAutomaton] that
    [NewModThreeCalculator] calls with the five fields of the
    configuration: the interface is [fsm.Automaton] and the constructor
    is [fsm.NewFiniteAutomaton]. *)
Record ModThreeCalculator (A : Type) : Type := { fa : A }.
Arguments fa {A} _.

Definition GetModThreeConfig : FiniteAutomaton := {|
  States := [StateS0; StateS1; StateS2];
  Alphabet := [Symbol0; Symbol1];
  InitialState := StateS0;
  AcceptingStates := [StateS0; StateS1; StateS2];
  Transitions :=
    <[StateS0 := <[Symbol0 := StateS0]> (<[Symbol1 := StateS1]> ∅)]>
    (<[StateS1 := <[Symbol0 := StateS2]> (<[Symbol1 := StateS0]> ∅)]>
    (<[StateS2 := <[Symbol0 := StateS1]> (<[Symbol1 := StateS2]> ∅)]> ∅))
|}.

(** [NewFiniteAutomaton] returns an automaton exactly when it returns no
    error, so the last branch is never taken. *)
Definition NewModThreeCalculator (cfg : FiniteAutomaton)
    : option (ModThreeCalculator fsm.FiniteAutomaton) * option error :=
  match fsm.NewFiniteAutomaton (States cfg) (Alphabet cfg) (InitialState cfg)
          (AcceptingStates cfg) (Transitions cfg) with
  | (_, Some err) => (None, Some (ErrInitEngine err))
  | (Some fa, None) => (Some {| fa := fa |}, None)
  | (None, None) => (None, None)
  end.

Definition stateToRemainder (state : string) : Z :=
  if String.eqb state StateS0 then 0
  else if String.eqb state StateS1 then 1
  else if String.eqb state StateS2 then 2
  else (-1).

(** The calls a method body makes on the engine behind the interface:
    a body is a tree whose nodes are the calls, each continued with the
    call's result, and whose leaves are the values returned. *)
Inductive prog (R : Type) : Type :=
  | Ret (r : R)
  | CallRun (input : string) (k : string * option error -> prog R)
  | CallIsAccepting (state : string) (k : bool -> prog R).
Arguments Ret {R} _.
Arguments CallRun {R} _ _.
Arguments CallIsAccepting {R} _ _.

Inductive method : Type :=
  | MRun (input : string)
  | MIsAccepting (state : string).

(** Running a body against an engine: the value returned ... *)
Fixpoint exec {A : Type} `{fsm.Automaton A} {R : Type} (a : A) (p : prog R) : R :=
  match p with
  | Ret r => r
  | CallRun input k => exec a (k (fsm.automaton_Run a input))
  | CallIsAccepting state k => exec a (k (fsm.automaton_IsAccepting a state))
  end.

(** ... and the calls made on the way, in order. *)
Fixpoint calls {A : Type} `{fsm.Automaton A} {R : Type} (a : A) (p : prog R)
    : list method :=
  match p with
  | Ret _ => []
  | CallRun input k => MRun input :: calls a (k (fsm.automaton_Run a input))
  | CallIsAccepting state k =>
    MIsAccepting state :: calls a (k (fsm.automaton_IsAccepting a state))
  end.

(** [isStateAccepting]: [c.fa.IsAccepting(finalState)]. *)
Definition isStateAccepting {R : Type} (finalState : string)
    (k : bool -> prog R) : prog R :=
  CallIsAccepting finalState k.

(** The body of [Calculate]. *)
Definition Calculate_body (input : string) : prog (Z * option error) :=
  if trimsToEmpty input then Ret (0, None)
  else
    CallRun input (fun '(finalState, err) =>
      match err with
      | Some e => Ret (-1, Some e)
      | None =>
        isStateAccepting finalState (fun accepting =>
          if negb accepting then Ret (-1, Some (ErrNonAccepting finalState))
          else
            let remainder := stateToRemainder finalState in
            if remainder =? -1 then Ret (-1, Some (ErrUnknownState finalState))
            else Ret (remainder, None))
      end).

Definition Calculate {A : Type} `{fsm.Automaton A} (c : ModThreeCalculator A)
    (input : string) : Z * option error :=
  exec (fa c) (Calculate_body input).

(** The engine calls of one [Calculate]. *)
Definition Calculate_calls {A : Type} `{fsm.Automaton A}
    (c : ModThreeCalculator A) (input : string) : list method :=
  calls (fa c) (Calculate_body input).

End mod3.

(** ** The vocabulary of the specification *)

Module spec.

(** *** The four construction invariants, on the arguments of
        [NewFiniteAutomaton] *)

Section Invariants.
Variables (states alphabet : list string) (initialState : string)
          (acceptingStates : list string)
          (transitions : gmap string (gmap string string)).

(** 1. The initial state is in the declared state list. *)
Definition initial_declared : Prop := initialState ∈ states.

(** 2. Every accepting state is in the declared state list. *)
Definition accepting_declared : Prop :=
  forall f, f ∈ acceptingStates -> f ∈ states.

(** 3. Every declared state has a transition entry for every declared
    alphabet symbol. *)
Definition transitions_total : Prop :=
  forall s a, s ∈ states -> a ∈ alphabet ->
    exists row t, transitions !! s = Some row /\ row !! a = Some t.

(** 4. Every such transition target is itself a declared state. *)
Definition transitions_closed : Prop :=
  forall s a row t, s ∈ states -> a ∈ alphabet ->
    transitions !! s = Some row -> row !! a = Some t -> t ∈ states.

Definition four_invariants : Prop :=
  initial_declared /\ accepting_declared /\
  transitions_total /\ transitions_closed.

(** What the constructor checks besides: every declared state has a
    row in the transition table, also when the alphabet is empty. *)
Definition rows_present : Prop :=
  forall s, s ∈ states -> is_Some (transitions !! s).
End Invariants.

(** The same invariants, on a constructed automaton. *)
Definition automaton_invariants (fa : fsm.FiniteAutomaton) : Prop :=
  is_Some (fsm.States fa !! fsm.InitialState fa) /\
  (forall f, is_Some (fsm.AcceptingStates fa !! f) ->
             is_Some (fsm.States fa !! f)) /\
  (forall s a, is_Some (fsm.States fa !! s) ->
               is_Some (fsm.Alphabet fa !! a) ->
     exists row t, fsm.Transitions fa !! s = Some row /\
                   row !! a = Some t /\
                   is_Some (fsm.States fa !! t)).

(** *** The transition function and its left fold *)

(** δ(s, a), where it is defined. *)
Definition delta (fa : fsm.FiniteAutomaton) (s a : string) : option string :=
  match fsm.Transitions fa !! s with
  | None => None
  | Some row => row !! a
  end.

(** The symbols of an input, one per character, left to right. *)
Definition symbols (input : string) : list string :=
  map string_of_rune (runes input).

(** The left fold of δ over a list of symbols. *)
Definition delta_fold (fa : fsm.FiniteAutomaton) (start : string)
    (syms : list string) : option string :=
  fold_left (fun st a => match st with
                         | None => None
                         | Some s => delta fa s a
                         end) syms (Some start).

(** The prefix [pre] of an input is consumed without failure and leaves
    the engine in state [q]. *)
Definition consumes (fa : fsm.FiniteAutomaton) (pre : list rune) (q : string) : Prop :=
  fsm.run_loop (fsm.Transitions fa) (fsm.InitialState fa) pre = (q, None).

(** A character is a member of the declared alphabet. *)
Definition in_alphabet (fa : fsm.FiniteAutomaton) (char : rune) : Prop :=
  is_Some (fsm.Alphabet fa !! string_of_rune char).

(** *** Binary numerals *)

Definition is_bit (c : ascii) : bool :=
  Ascii.eqb c "0"%char || Ascii.eqb c "1"%char.

(** The string consists only of the characters '0' and '1'. *)
Fixpoint is_binary (s : string) : bool :=
  match s with
  | EmptyString => true
  | String c t => is_bit c && is_binary t
  end.

Definition bit_value (c : ascii) : Z :=
  if Ascii.eqb c "1"%char then 1%Z else 0%Z.

(** The number a binary numeral denotes, most-significant bit first,
    continuing from the value [acc] of the digits already read. *)
Fixpoint binary_value_from (acc : Z) (s : string) : Z :=
  match s with
  | EmptyString => acc
  | String c t => binary_value_from (2 * acc + bit_value c)%Z t
  end.

Definition binary_value (s : string) : Z := binary_value_from 0 s.

(** The input has a character other than '0' and '1'. *)
Definition has_foreign_char (input : string) : Prop :=
  exists char, char ∈ runes input /\ char <> 48%Z /\ char <> 49%Z.

(** The input has a byte other than '0' and '1'. *)
Definition has_foreign_byte (input : string) : Prop :=
  exists c, c ∈ list_ascii_of_string input /\ is_bit c = false.

(** [s] repeated [n] times, [strings.Repeat]. *)
Fixpoint Repeat (s : string) (n : nat) : string :=
  match n with
  | O => EmptyString
  | S m => s ++ Repeat s m
  end.

(** The input consists only of spaces, tabs and newlines. *)
Fixpoint is_blank (s : string) : bool :=
  match s with
  | EmptyString => true
  | String c t =>
    (Ascii.eqb c " "%char || Ascii.eqb c "009"%char || Ascii.eqb c "010"%char)
    && is_blank t
  end.

(** *** The modulo-three engine *)

(** The state that stands for a remainder. *)
Definition state_of (n : Z) : string :=
  if (n =? 0)%Z then mod3.StateS0
  else if (n =? 1)%Z then mod3.StateS1
  else mod3.StateS2.

(** The automaton [NewFiniteAutomaton] builds from [GetModThreeConfig]. *)
Definition the_automaton : fsm.FiniteAutomaton := {|
  fsm.States := fsm.make_set (mod3.States mod3.GetModThreeConfig);
  fsm.Alphabet := fsm.make_set (mod3.Alphabet mod3.GetModThreeConfig);
  fsm.InitialState := mod3.InitialState mod3.GetModThreeConfig;
  fsm.AcceptingStates :=
    fsm.make_set (mod3.AcceptingStates mod3.GetModThreeConfig);
  fsm.Transitions := mod3.Transitions mod3.GetModThreeConfig
|}.

Definition the_calculator : mod3.ModThreeCalculator fsm.FiniteAutomaton :=
  {| mod3.fa := the_automaton |}.

(** *** Further vocabulary *)

(** A row serves a symbol: the symbol has a target in the row, and the
    target is a key of the state set. *)
Definition served (stateSet : gmap string bool) (row : gmap string string)
    (a : string) : Prop :=
  exists t, row !! a = Some t /\ is_Some (stateSet !! t).

(** The same, against the declared state list. *)
Definition serves (states : list string) (row : gmap string string)
    (a : string) : Prop :=
  exists t, row !! a = Some t /\ t ∈ states.

(** A declared state is complete: it has a row, and the row serves every
    symbol of the alphabet. *)
Definition complete (states alphabet : list string)
    (transitions : gmap string (gmap string string)) (s : string) : Prop :=
  exists row, transitions !! s = Some row /\
              forall a, a ∈ alphabet -> serves states row a.

(** What an error of the constructor says about the configuration. *)
Definition violation (states alphabet : list string) (initialState : string)
    (acceptingStates : list string)
    (transitions : gmap string (gmap string string)) (e : error) : Prop :=
  match e with
  | ErrInitialState s => s = initialState /\ s ∉ states
  | ErrAcceptingState f => f ∈ acceptingStates /\ f ∉ states
  | ErrMissingRules s => s ∈ states /\ transitions !! s = None
  | ErrMissingTransition s a =>
    s ∈ states /\ a ∈ alphabet /\
    exists row, transitions !! s = Some row /\ row !! a = None
  | ErrUndefinedTarget s a t =>
    s ∈ states /\ a ∈ alphabet /\ (t ∉ states) /\
    exists row, transitions !! s = Some row /\ row !! a = Some t
  | _ => False
  end.

(** The length of a string, as a number. *)
Definition len (s : string) : Z := Z.of_nat (String.length s).

End spec.

(** ** Fixtures of the test suites, used as concrete inputs *)

Module fixtures.

(** [setupSimpleFA] of [src/fsm/fsm_test.go]: only the initial state and
    the transitions are set. *)
Definition setupSimpleFA : fsm.FiniteAutomaton := {|
  fsm.States := ∅;
  fsm.Alphabet := ∅;
  fsm.InitialState := "Start";
  fsm.AcceptingStates := ∅;
  fsm.Transitions :=
    <["Start" := <["a" := "Middle"]> (<["x" := "Fail"]> ∅)]>
    (<["Middle" := <["b" := "End"]> ∅]>
    (<["End" := <["c" := "End"]> ∅]> ∅))
|}.

(** The automaton of [TestFiniteAutomaton_ValidateInput] with the common
    alphabet. *)
Definition commonAlphabetFA : fsm.FiniteAutomaton := {|
  fsm.States := ∅;
  fsm.Alphabet :=
    <["a" := true]> (<["b" := true]> (<["c" := true]>
      (<["0" := true]> (<["1" := true]> ∅))));
  fsm.InitialState := "";
  fsm.AcceptingStates := ∅;
  fsm.Transitions := ∅
|}.

(** A mock engine behind the interface whose [Run] always fails. *)
Inductive MockAutomaton : Type := FailingMock.

#[global] Instance MockAutomaton_Automaton : fsm.Automaton MockAutomaton := {
  fsm.automaton_Run := fun _ _ => ("", Some (ErrMissingStateRow "mock"));
  fsm.automaton_IsAccepting := fun _ _ => true;
  fsm.automaton_ValidateInput := fun _ _ => true
}.

(** The engine of [TestCalculate_AcceptanceCheck]
    ([src/mod3/modthree_test.go]): two states, of which only the first
    accepts. *)
Definition restrictiveFA : fsm.FiniteAutomaton := {|
  fsm.States := fsm.make_set ["S0"; "S1"];
  fsm.Alphabet := fsm.make_set ["0"];
  fsm.InitialState := "S0";
  fsm.AcceptingStates := fsm.make_set ["S0"];
  fsm.Transitions :=
    <["S0" := <["0" := "S1"]> ∅]> (<["S1" := <["0" := "S1"]> ∅]> ∅)
|}.

(** The table of [TestNewFiniteAutomaton_Validation], case "Transition
    Leads to Undefined State": S0 on '0' goes to S99. *)
Definition undefinedTargetTable : gmap string (gmap string string) :=
  <["S0" := <["0" := "S99"]> (<["1" := "S1"]> ∅)]>
  (<["S1" := <["0" := "S2"]> (<["1" := "S0"]> ∅)]>
  (<["S2" := <["0" := "S1"]> (<["1" := "S2"]> ∅)]> ∅)).

(** The configuration of [TestNewModThreeCalculator], case
    FSM_Init_Failure: the modulo-three configuration with an empty
    transition table. *)
Definition emptyTableConfig : mod3.FiniteAutomaton := {|
  mod3.States := mod3.States mod3.GetModThreeConfig;
  mod3.Alphabet := mod3.Alphabet mod3.GetModThreeConfig;
  mod3.InitialState := mod3.InitialState mod3.GetModThreeConfig;
  mod3.AcceptingStates := mod3.AcceptingStates mod3.GetModThreeConfig;
  mod3.Transitions := ∅
|}.

(** The same engine as [restrictiveFA], as an automaton of package mod3. *)
Definition restrictiveOwnFA : mod3.FiniteAutomaton := {|
  mod3.States := ["S0"; "S1"];
  mod3.Alphabet := ["0"];
  mod3.InitialState := "S0";
  mod3.AcceptingStates := ["S0"];
  mod3.Transitions :=
    <["S0" := <["0" := "S1"]> ∅]> (<["S1" := <["0" := "S1"]> ∅]> ∅)
|}.

End fixtures.

(** ** Proof automation *)

(** Case analysis on a remainder [0 <= n < 3]. *)
Ltac remainder_cases n :=
  let H := fresh in
  assert (n = 0 \/ n = 1 \/ n = 2)%Z as H by lia;
  destruct H as [->|[->| ->]].

(** * Properties *)

(** ** Go strings *)

Module gostring_facts.

(** *** Bytes and single-byte symbols *)

Lemma byte_val_range c : (0 <= byte_val c < 256)%Z.
Proof.
  unfold byte_val. pose proof (N_ascii_bounded c). lia.
Qed.

Lemma byte_val_chr b : (0 <= b < 256)%Z -> byte_val (chr b) = b.
Proof.
  intros Hb. unfold byte_val, chr.
  rewrite N_ascii_embedding by lia. lia.
Qed.

Lemma chr_byte_val c : chr (byte_val c) = c.
Proof.
  unfold byte_val, chr. rewrite N2Z.id. apply ascii_N_embedding.
Qed.

(** [string(r)] is a one-byte string exactly for the ASCII runes. *)
Lemma string_of_rune_single r c :
  string_of_rune r = String c EmptyString <-> (r = byte_val c /\ r < 128)%Z.
Proof.
  unfold string_of_rune. split.
  - repeat case_match; intros Heq; try discriminate Heq.
    injection Heq as <-.
    assert (0 <= r <= 127)%Z as Hr by lia.
    rewrite byte_val_chr by lia. lia.
  - intros [-> Hlt]. pose proof (byte_val_range c) as Hc.
    replace ((0 <=? byte_val c)%Z && (byte_val c <=? 127)%Z) with true
      by (symmetry; apply andb_true_iff; lia).
    by rewrite chr_byte_val.
Qed.

(** An ASCII byte is a character of its own. *)
Lemma runes_ascii c t :
  (byte_val c < 128)%Z -> runes (String c t) = byte_val c :: runes t.
Proof.
  intros Hc. simpl.
  destruct (byte_val c <? 128)%Z eqn:E; [done | lia].
Qed.

(** *** [strings.TrimSpace] *)

Lemma dropWhile_nil p rs : dropWhile p rs = [] <-> forallb p rs = true.
Proof.
  induction rs as [|r rs IH]; simpl; [done|].
  destruct (p r); simpl; [done|]. split; discriminate.
Qed.

Lemma dropWhile_snoc_stop p rs r : p r = false -> dropWhile p (rs ++ [r]) <> [].
Proof.
  intros Hr. induction rs as [|x rs IH]; simpl.
  - by rewrite Hr.
  - destruct (p x); [done | discriminate].
Qed.

Lemma TrimSpace_nil rs : TrimSpace rs = [] <-> forallb IsSpace rs = true.
Proof.
  unfold TrimSpace. rewrite <- dropWhile_nil.
  destruct (dropWhile IsSpace rs) as [|r l] eqn:E; [done|].
  assert (IsSpace r = false) as Hr.
  { clear -E. induction rs as [|x rs IH]; simpl in E; [done|].
    destruct (IsSpace x) eqn:Ex; [auto | congruence]. }
  split; [|discriminate].
  intros H. apply (f_equal (@rev _)) in H. rewrite rev_involutive in H.
  simpl in H. by apply dropWhile_snoc_stop in H.
Qed.

(** An input trims to the empty string exactly when all its characters
    are white space. *)
Lemma trimsToEmpty_spec s : trimsToEmpty s = forallb IsSpace (runes s).
Proof.
  unfold trimsToEmpty.
  destruct (TrimSpace (runes s)) eqn:E.
  - symmetry. by apply TrimSpace_nil.
  - destruct (forallb IsSpace (runes s)) eqn:F; [|done].
    apply TrimSpace_nil in F. congruence.
Qed.

(** *** The decoder: a byte that is not ASCII never yields an ASCII rune *)

Section Decoder.
Local Open Scope Z_scope.

Lemma shiftr_lor_low x l k :
  0 <= k -> 0 <= l < 2 ^ k -> Z.shiftr (Z.lor x l) k = Z.shiftr x k.
Proof.
  intros Hk Hl. rewrite Z.shiftr_lor, (Z.shiftr_div_pow2 l) by done.
  rewrite Z.div_small by done. apply Z.lor_0_r.
Qed.

Lemma shiftr_lower x k c :
  0 <= k -> c <= Z.shiftr x k -> c * 2 ^ k <= x.
Proof.
  intros Hk Hc. rewrite Z.shiftr_div_pow2 in Hc by done.
  assert (0 < 2 ^ k) as Hpos by (apply Z.pow_pos_nonneg; lia).
  pose proof (Z.mul_div_le x (2 ^ k) Hpos). nia.
Qed.

Lemma mod_window s b q : 0 < b -> b * q <= s < b * q + b -> s mod b = s - b * q.
Proof.
  intros Hb Hs. symmetry. apply (Z.mod_unique s b q); lia.
Qed.

Lemma land_63 s : 128 <= s <= 191 -> Z.land s 63 = s - 128.
Proof.
  intros Hs. change 63 with (Z.ones 6). rewrite Z.land_ones by lia.
  change (2 ^ 6) with 64.
  rewrite (mod_window s 64 2); lia.
Qed.

Lemma land_low s : 0 <= Z.land s 63 < 64.
Proof.
  change 63 with (Z.ones 6). rewrite Z.land_ones by lia.
  apply Z.mod_pos_bound. reflexivity.
Qed.

Lemma rune2_lower s0 s1 : 194 <= s0 <= 223 -> 128 <= rune2 s0 s1.
Proof.
  intros H0. unfold rune2.
  apply (shiftr_lower _ 6 2); [lia|].
  rewrite shiftr_lor_low by (pose proof (land_low s1); change (2 ^ 6) with 64; lia).
  rewrite Z.shiftr_shiftl_l by lia. change (6 - 6) with 0. rewrite Z.shiftl_0_r.
  change 31 with (Z.ones 5). rewrite Z.land_ones by lia. change (2 ^ 5) with 32.
  rewrite (mod_window s0 32 6); lia.
Qed.

Lemma low_lor_shiftl h m : 0 <= h -> 0 <= m < 64 -> 1 <= h \/ 1 <= m ->
  1 <= Z.lor (Z.shiftl h 6) m.
Proof.
  intros Hh Hm [H|H].
  - pose proof (shiftr_lower (Z.lor (Z.shiftl h 6) m) 6 1) as L.
    rewrite shiftr_lor_low, Z.shiftr_shiftl_l in L by (change (2 ^ 6) with 64; lia).
    change (6 - 6) with 0 in L. rewrite Z.shiftl_0_r in L.
    change (2 ^ 6) with 64 in L. lia.
  - assert (0 <= Z.lor (Z.shiftl h 6) m) as Hnn.
    { apply Z.lor_nonneg. split; [apply Z.shiftl_nonneg|]; lia. }
    destruct (Z.eq_dec (Z.lor (Z.shiftl h 6) m) 0) as [E|E]; [|lia].
    apply Z.lor_eq_0_iff in E as [_ E]. lia.
Qed.

Lemma rune3_lower s0 s1 s2 :
  224 <= s0 <= 239 -> (if s0 =? 224 then 160 else 128) <= s1 <= 191 ->
  128 <= rune3 s0 s1 s2.
Proof.
  intros H0 H1. unfold rune3.
  apply (shiftr_lower _ 6 2); [lia|].
  rewrite shiftr_lor_low by (pose proof (land_low s2); change (2 ^ 6) with 64; lia).
  rewrite Z.shiftr_lor, !Z.shiftr_shiftl_l by lia.
  change (12 - 6) with 6. change (6 - 6) with 0. rewrite Z.shiftl_0_r.
  assert (Z.land s0 15 = s0 - 224) as ->.
  { change 15 with (Z.ones 4). rewrite Z.land_ones by lia. change (2 ^ 4) with 16.
    rewrite (mod_window s0 16 14); lia. }
  rewrite land_63 by (destruct (s0 =? 224); lia).
  destruct (Z.eqb_spec s0 224) as [->|Hne].
  - change (224 - 224) with 0. rewrite Z.shiftl_0_l, Z.lor_0_l. lia.
  - pose proof (shiftr_lower (Z.lor (Z.shiftl (s0 - 224) 6) (s1 - 128)) 6 1) as L.
    rewrite shiftr_lor_low, Z.shiftr_shiftl_l in L by (change (2 ^ 6) with 64; lia).
    change (6 - 6) with 0 in L. rewrite Z.shiftl_0_r in L.
    change (2 ^ 6) with 64 in L. lia.
Qed.

Lemma rune4_lower s0 s1 s2 s3 :
  240 <= s0 <= 244 -> (if s0 =? 240 then 144 else 128) <= s1 <= 191 ->
  128 <= rune4 s0 s1 s2 s3.
Proof.
  intros H0 H1. unfold rune4.
  apply Z.le_trans with (1 * 2 ^ 12); [done|].
  apply shiftr_lower; [lia|].
  rewrite !Z.shiftr_lor.
  pose proof (land_low s3) as L3. pose proof (land_low s2) as L2.
  rewrite (Z.shiftr_shiftl_r _ 6 12) by lia. change (12 - 6) with 6.
  rewrite (Z.shiftr_div_pow2 (Z.land s2 63) 6),
    (Z.shiftr_div_pow2 (Z.land s3 63) 12) by lia.
  change (2 ^ 12) with 4096. change (2 ^ 6) with 64.
  rewrite (Z.div_small (Z.land s2 63)), (Z.div_small (Z.land s3 63)) by lia.
  rewrite !Z.lor_0_r, !Z.shiftr_shiftl_l by lia.
  change (18 - 12) with 6. change (12 - 12) with 0. rewrite Z.shiftl_0_r.
  assert (Z.land s0 7 = s0 - 240) as ->.
  { change 7 with (Z.ones 3). rewrite Z.land_ones by lia. change (2 ^ 3) with 8.
    rewrite (mod_window s0 8 30); lia. }
  rewrite land_63 by (destruct (s0 =? 240); lia).
  apply low_lor_shiftl; [lia| |].
  - destruct (s0 =? 240); lia.
  - destruct (Z.eqb_spec s0 240); lia.
Qed.

Lemma lead_Some s0 sz lo hi :
  128 <= s0 -> lead s0 = Some (sz, lo, hi) ->
  (sz = 2%nat /\ 194 <= s0 <= 223) \/
  (sz = 3%nat /\ 224 <= s0 <= 239 /\
   (if s0 =? 224 then 160 else 128) <= lo /\ hi <= 191) \/
  (sz = 4%nat /\ 240 <= s0 <= 244 /\
   (if s0 =? 240 then 144 else 128) <= lo /\ hi <= 191).
Proof.
  intros Hs0. unfold lead.
  repeat match goal with
  | |- context [Z.ltb ?a ?b] => destruct (Z.ltb_spec a b)
  | |- context [Z.leb ?a ?b] => destruct (Z.leb_spec a b)
  | |- context [Z.eqb ?a ?b] => destruct (Z.eqb_spec a b)
  end; intros [= <- <- <-]; try discriminate; lia.
Qed.

(** A byte that is not ASCII starts a character that is not ASCII. *)
Lemma runes_head_high c t :
  128 <= byte_val c -> exists r rest, runes (String c t) = r :: rest /\ 128 <= r.
Proof.
  intros Hc. cbn [runes].
  destruct (Z.ltb_spec (byte_val c) 128) as [?|_]; [lia|].
  assert (128 <= RuneError) as HE by (unfold RuneError; lia).
  destruct (lead (byte_val c)) as [[[sz lo] hi]|] eqn:El; [|eauto].
  apply lead_Some in El as Hl; [|done].
  destruct t as [|c1 t1]; [eauto|].
  destruct (Z.ltb_spec (byte_val c1) lo); [simpl; eauto|].
  destruct (Z.ltb_spec hi (byte_val c1)); [simpl; eauto|]. simpl orb. cbv iota.
  destruct Hl as [[-> Hr]|[(-> & Hr & Hlo & Hhi)|(-> & Hr & Hlo & Hhi)]].
  - simpl. eexists _, _. split; [done|]. by apply rune2_lower.
  - change (3 <=? 2)%nat with false. cbv iota.
    destruct t1 as [|c2 t2]; [eauto|].
    destruct (is_cont (byte_val c2)); [|simpl; eauto]. simpl.
    eexists _, _. split; [done|]. apply rune3_lower; [done|].
    destruct (byte_val c =? 224); lia.
  - change (4 <=? 2)%nat with false. cbv iota.
    destruct t1 as [|c2 t2]; [eauto|].
    destruct (is_cont (byte_val c2)); [|simpl; eauto]. simpl.
    destruct t2 as [|c3 t3]; [eauto|].
    destruct (is_cont (byte_val c3)); [|simpl; eauto]. simpl.
    eexists _, _. split; [done|]. apply rune4_lower; [done|].
    destruct (byte_val c =? 240); lia.
Qed.
End Decoder.

End gostring_facts.

(** ** The engine of package fsm *)

Module fsm_facts.

Import fsm spec.

(** *** The sets built from the slices *)

Lemma foldl_insert_lookup (l : list string) (m : gmap string bool) k :
  is_Some (foldl (fun m s => <[s := true]> m) m l !! k) <->
  k ∈ l \/ is_Some (m !! k).
Proof.
  revert m. induction l as [|x l IH]; intros m; simpl.
  - rewrite elem_of_nil. tauto.
  - rewrite IH, elem_of_cons, lookup_insert_is_Some.
    destruct (decide (x = k)) as [->|Hne]; [tauto|].
    split; [intros [?|[?|[? ?]]] | intros [[?|?]|?]]; auto; congruence.
Qed.

Lemma make_set_lookup l k : is_Some (make_set l !! k) <-> k ∈ l.
Proof.
  unfold make_set. rewrite foldl_insert_lookup, lookup_empty.
  split; [intros [?|[? ?]]; [done|discriminate] | auto].
Qed.

Lemma make_set_lookup_None l k : make_set l !! k = None <-> k ∉ l.
Proof.
  rewrite <- make_set_lookup, eq_None_not_Some. done.
Qed.

(** *** The three validation loops *)

Lemma check_accepting_None stateSet acc :
  check_accepting stateSet acc = None <->
  forall f, f ∈ acc -> is_Some (stateSet !! f).
Proof.
  induction acc as [|x acc IH]; simpl.
  - split; [intros _ f Hf; by apply elem_of_nil in Hf | done].
  - destruct (stateSet !! x) eqn:E.
    + rewrite IH. split.
      * intros H f [->|Hf]%elem_of_cons; [by rewrite E | auto].
      * intros H f Hf. apply H. by right.
    + split; [discriminate|]. intros H.
      destruct (H x) as [? Hx]; [by left | congruence].
Qed.

Lemma check_row_None stateSet s row alphabet :
  check_row stateSet s row alphabet = None <->
  forall a, a ∈ alphabet ->
    exists t, row !! a = Some t /\ is_Some (stateSet !! t).
Proof.
  induction alphabet as [|x alphabet IH]; simpl.
  - split; [intros _ a Ha; by apply elem_of_nil in Ha | done].
  - destruct (row !! x) as [t|] eqn:E.
    + destruct (stateSet !! t) eqn:Et.
      * rewrite IH. split.
        -- intros H a [->|Ha]%elem_of_cons; [|auto].
           exists t. by rewrite Et.
        -- intros H a Ha. apply H. by right.
      * split; [discriminate|]. intros H.
        destruct (H x) as (t' & Ht' & [? Hs]); [by left|].
        congruence.
    + split; [discriminate|]. intros H.
      destruct (H x) as (t' & Ht' & _); [by left | congruence].
Qed.

Lemma check_transitions_None stateSet alphabet transitions states :
  check_transitions stateSet alphabet transitions states = None <->
  forall s, s ∈ states ->
    exists row, transitions !! s = Some row /\
      forall a, a ∈ alphabet ->
        exists t, row !! a = Some t /\ is_Some (stateSet !! t).
Proof.
  induction states as [|x states IH]; simpl.
  - split; [intros _ s Hs; by apply elem_of_nil in Hs | done].
  - destruct (transitions !! x) as [row|] eqn:E.
    + destruct (check_row stateSet x row alphabet) eqn:Er.
      * split; [discriminate|]. intros H.
        destruct (H x) as (row' & Hrow' & Hall); [by left|].
        assert (row' = row) as -> by congruence.
        apply (check_row_None stateSet x) in Hall. congruence.
      * rewrite IH. split.
        -- intros H s [->|Hs]%elem_of_cons; [|auto].
           exists row. split; [done|]. exact (proj1 (check_row_None _ _ _ _) Er).
        -- intros H s Hs. apply H. by right.
    + split; [discriminate|]. intros H.
      destruct (H x) as (row' & Hrow' & _); [by left | congruence].
Qed.

(** *** The constructor *)

Section Constructor.
Variables (states alphabet : list string) (initialState : string)
          (acceptingStates : list string)
          (transitions : gmap string (gmap string string)).

Local Abbreviation result :=
  (NewFiniteAutomaton states alphabet initialState acceptingStates transitions).

(** The constructor returns an automaton or an error, never both and
    never neither. *)
Lemma NewFiniteAutomaton_shape :
  (exists fa, result = (Some fa, None)) \/ (exists e, result = (None, Some e)).
Proof.
  unfold NewFiniteAutomaton. repeat case_match; eauto.
Qed.

(** Success, check by check. *)
Lemma NewFiniteAutomaton_Some fa :
  result = (Some fa, None) <->
  fa = {| States := make_set states; Alphabet := make_set alphabet;
          InitialState := initialState;
          AcceptingStates := make_set acceptingStates;
          Transitions := transitions |} /\
  is_Some (make_set states !! initialState) /\
  check_accepting (make_set states) acceptingStates = None /\
  check_transitions (make_set states) alphabet transitions states = None.
Proof.
  unfold NewFiniteAutomaton. split.
  - repeat case_match; intros Heq; try discriminate Heq.
    injection Heq as <-. eauto.
  - intros (-> & [b Hb] & Ha & Ht). by rewrite Hb, Ha, Ht.
Qed.

Lemma constructor_succeeds_iff :
  (exists fa, result = (Some fa, None)) <->
  four_invariants states alphabet initialState acceptingStates transitions /\
  rows_present states transitions.
Proof.
  split.
  - intros [fa (_ & Hi & Ha & Ht)%NewFiniteAutomaton_Some].
    apply make_set_lookup in Hi.
    rewrite check_accepting_None in Ha.
    rewrite check_transitions_None in Ht.
    repeat split.
    + done.
    + intros f Hf. apply make_set_lookup. auto.
    + intros s a Hs Hal. destruct (Ht s Hs) as (row & Hrow & Hall).
      destruct (Hall a Hal) as (t & Ht' & _). eauto.
    + intros s a row t Hs Hal Hrow Hlk.
      destruct (Ht s Hs) as (row' & Hrow' & Hall).
      assert (row' = row) as -> by congruence.
      destruct (Hall a Hal) as (t' & Ht' & Hin).
      assert (t' = t) as -> by congruence.
      by apply make_set_lookup.
    + intros s Hs. destruct (Ht s Hs) as (row & -> & _). eauto.
  - intros [(Hi & Ha & Htot & Hcl) Hrows]. eexists.
    apply NewFiniteAutomaton_Some. split; [reflexivity|]. repeat split.
    + by apply make_set_lookup.
    + apply check_accepting_None. intros f Hf. apply make_set_lookup. auto.
    + apply check_transitions_None. intros s Hs.
      destruct (Hrows s Hs) as [row Hrow]. exists row. split; [done|].
      intros a Hal. destruct (Htot s a Hs Hal) as (row' & t & Hrow' & Hlk).
      assert (row' = row) as -> by congruence.
      exists t. split; [done|]. apply make_set_lookup. eauto.
Qed.

(** With a symbol in the alphabet, totality gives every state its row. *)
Lemma total_rows_present :
  alphabet <> [] -> transitions_total states alphabet transitions ->
  rows_present states transitions.
Proof.
  intros Hne Htot s Hs. destruct alphabet as [|a alphabet']; [done|].
  destruct (Htot s a Hs) as (row & _ & -> & _); [by left | eauto].
Qed.

Lemma constructed_invariants fa :
  result = (Some fa, None) -> automaton_invariants fa.
Proof.
  intros (-> & Hi & Ha & Ht)%NewFiniteAutomaton_Some.
  rewrite check_accepting_None in Ha.
  rewrite check_transitions_None in Ht.
  unfold automaton_invariants; simpl. split; [done|]. split.
  - intros f Hf%make_set_lookup. auto.
  - intros s a Hs%make_set_lookup Hal%make_set_lookup.
    destruct (Ht s Hs) as (row & Hrow & Hall).
    destruct (Hall a Hal) as (t & Hlk & Hin). eauto.
Qed.

End Constructor.

(** *** The run loop *)

Section Engine.
Variable fa : FiniteAutomaton.
Local Abbreviation T := (Transitions fa).

(** [ValidateInput]'s loop accepts exactly the lists of members. *)
Lemma validate_loop_Forall (alphabet : gmap string bool) chars :
  validate_loop alphabet chars = true <->
  Forall (fun char => is_Some (alphabet !! string_of_rune char)) chars.
Proof.
  induction chars as [|r chars IH]; simpl.
  - split; [constructor | done].
  - rewrite Forall_cons. destruct (alphabet !! string_of_rune r) eqn:E.
    + rewrite IH. split; [eauto | tauto].
    + split; [discriminate | intros [[? ?] _]; discriminate].
Qed.

(** After a prefix consumed without failure the loop goes on from the
    state reached. *)
Lemma run_loop_app q pre rest p :
  run_loop T q pre = (p, None) ->
  run_loop T q (pre ++ rest)%list = run_loop T p rest.
Proof.
  revert q. induction pre as [|r pre IH]; intros q; simpl.
  - by intros [= ->].
  - destruct (T !! q) as [row|]; [|discriminate].
    destruct (row !! string_of_rune r) as [nxt|]; [|discriminate].
    apply IH.
Qed.

(** On a valid automaton the loop, started in a declared state on
    characters of the alphabet, ends in a declared state. *)
Lemma run_loop_closed q chars :
  automaton_invariants fa ->
  is_Some (States fa !! q) ->
  Forall (in_alphabet fa) chars ->
  exists q', run_loop T q chars = (q', None) /\ is_Some (States fa !! q').
Proof.
  intros (_ & _ & Hdelta). revert q.
  induction chars as [|r chars IH]; intros q Hq Hall; simpl.
  - eauto.
  - apply Forall_cons in Hall as [Hr Hall].
    destruct (Hdelta q (string_of_rune r) Hq Hr) as (row & t & -> & -> & Ht).
    by apply IH.
Qed.

Lemma fold_left_None (syms : list string) :
  fold_left (fun st a => match st with
                         | None => None
                         | Some s => delta fa s a
                         end) syms None = None.
Proof. by induction syms. Qed.

(** The loop succeeds exactly where the fold of δ is defined. *)
Lemma run_loop_fold q chars q' :
  run_loop T q chars = (q', None) <->
  delta_fold fa q (map string_of_rune chars) = Some q'.
Proof.
  unfold delta_fold. revert q.
  induction chars as [|r chars IH]; intros q; simpl.
  - split; congruence.
  - unfold delta at 2.
    destruct (T !! q) as [row|].
    + destruct (row !! string_of_rune r) as [nxt|]; [apply IH|].
      rewrite fold_left_None. split; discriminate.
    + rewrite fold_left_None. split; discriminate.
Qed.

(** Every failure of the loop: where it happens and what is returned. *)
Lemma run_loop_failure q chars q' e :
  run_loop T q chars = (q', Some e) ->
  q' = "" /\
  exists pre char post p,
    chars = (pre ++ char :: post)%list /\
    run_loop T q pre = (p, None) /\
    ((T !! p = None /\ e = ErrMissingStateRow p) \/
     (exists row, T !! p = Some row /\ row !! string_of_rune char = None /\
                  e = ErrUnknownSymbol (string_of_rune char) p)).
Proof.
  revert q. induction chars as [|r chars IH]; intros q; simpl; [discriminate|].
  destruct (T !! q) as [row|] eqn:Erow.
  - destruct (row !! string_of_rune r) as [nxt|] eqn:Enxt.
    + intros (-> & pre & char & post & p & -> & Hpre & Hfail)%IH.
      split; [done|]. exists (r :: pre), char, post, p.
      split; [done|]. split; [|done]. simpl. by rewrite Erow, Enxt.
    + intros [= <- <-]. split; [done|].
      exists [], r, chars, q. repeat split. right. eauto.
  - intros [= <- <-]. split; [done|].
    exists [], r, chars, q. repeat split. by left.
Qed.
End Engine.
End fsm_facts.

(** ** The modulo-three calculator *)

Module mod3_facts.
Import mod3 spec gostring_facts.
Local Open Scope Z_scope.

(** The configuration passes the constructor. *)
Lemma NewModThreeCalculator_default :
  NewModThreeCalculator GetModThreeConfig = (Some the_calculator, None).
Proof. reflexivity. Qed.

Lemma NewModThreeCalculator_inv calc :
  NewModThreeCalculator GetModThreeConfig = (Some calc, None) ->
  calc = the_calculator.
Proof. rewrite NewModThreeCalculator_default. congruence. Qed.

Lemma string_of_rune_0 r : string_of_rune r = "0" <-> r = 48.
Proof.
  rewrite string_of_rune_single. change (byte_val "0") with 48. lia.
Qed.

Lemma string_of_rune_1 r : string_of_rune r = "1" <-> r = 49.
Proof.
  rewrite string_of_rune_single. change (byte_val "1") with 49. lia.
Qed.

Local Abbreviation T := (Transitions GetModThreeConfig).

(** Lookup of a character's symbol in a row of the table. *)
Lemma row_lookup (x y : string) r :
  (<["0" := x]> (<["1" := y]> (∅ : gmap string string))) !! string_of_rune r =
  if r =? 48 then Some x else if r =? 49 then Some y else None.
Proof.
  destruct (Z.eqb_spec r 48) as [->|H0].
  { reflexivity. }
  destruct (Z.eqb_spec r 49) as [->|H1].
  { reflexivity. }
  rewrite lookup_insert_ne
    by (intros E; symmetry in E; by apply string_of_rune_0 in E).
  rewrite lookup_insert_ne
    by (intros E; symmetry in E; by apply string_of_rune_1 in E).
  apply lookup_empty.
Qed.

(** One step of the engine on a bit: [(2 * n + b) mod 3]. *)
Lemma step_bit n b rest :
  0 <= n < 3 -> 0 <= b <= 1 ->
  fsm.run_loop T (state_of n) (48 + b :: rest) =
  fsm.run_loop T (state_of ((2 * n + b) mod 3)) rest.
Proof.
  intros Hn Hb. remainder_cases n;
    assert (b = 0 \/ b = 1) as [->| ->] by lia; reflexivity.
Qed.

Lemma stateToRemainder_state_of n :
  0 <= n < 3 -> stateToRemainder (state_of n) = n.
Proof.
  intros Hn. remainder_cases n; reflexivity.
Qed.

Lemma IsAccepting_state_of n :
  fsm.IsAccepting the_automaton (state_of n) = true.
Proof.
  unfold state_of. repeat case_match; reflexivity.
Qed.

Lemma StateToRemainder_same state :
  StateToRemainder state = stateToRemainder state.
Proof. reflexivity. Qed.

Lemma stateToRemainder_range state :
  stateToRemainder state = -1 \/ 0 <= stateToRemainder state <= 2.
Proof.
  unfold stateToRemainder. repeat case_match; lia.
Qed.

(** The two packages have the same run loop. *)
Lemma run_loop_same transitions q chars :
  mod3.run_loop transitions q chars = fsm.run_loop transitions q chars.
Proof.
  revert q. induction chars as [|r chars IH]; intros q; simpl; [done|].
  repeat case_match; auto.
Qed.

Lemma is_bit_byte c :
  is_bit c = true -> byte_val c = 48 + bit_value c /\ 0 <= bit_value c <= 1.
Proof.
  unfold is_bit, bit_value. intros [H|H]%orb_true_iff.
  - apply Ascii.eqb_eq in H as ->. split; [reflexivity | simpl; lia].
  - apply Ascii.eqb_eq in H as ->. split; [reflexivity | simpl; lia].
Qed.

Lemma binary_value_from_mod a b s :
  a mod 3 = b mod 3 ->
  binary_value_from a s mod 3 = binary_value_from b s mod 3.
Proof.
  revert a b. induction s as [|c s IH]; intros a b Hab; simpl; [done|].
  apply IH.
  rewrite (Z.add_mod (2 * a)), (Z.add_mod (2 * b)) by lia.
  rewrite (Z.mul_mod 2 a), (Z.mul_mod 2 b) by lia.
  by rewrite Hab.
Qed.

(** The engine, started in the state of remainder [n], reads a binary
    numeral and stops in the state of the remainder of its value. *)
Lemma run_loop_binary s n :
  is_binary s = true -> 0 <= n < 3 ->
  fsm.run_loop T (state_of n) (runes s) =
  (state_of (binary_value_from n s mod 3), None).
Proof.
  revert n. induction s as [|c s IH]; intros n Hbin Hn.
  - simpl. by rewrite Z.mod_small.
  - simpl in Hbin. apply andb_true_iff in Hbin as [Hc Hs].
    apply is_bit_byte in Hc as [Hc Hb].
    rewrite runes_ascii by lia. rewrite Hc, step_bit by done.
    rewrite IH; [|done|by apply Z.mod_pos_bound].
    simpl binary_value_from. f_equal. f_equal.
    apply binary_value_from_mod. by rewrite Z.mod_mod.
Qed.

Lemma run_loop_cons transitions q r rest :
  fsm.run_loop transitions q (r :: rest) =
  match transitions !! q with
  | None => ("", Some (ErrMissingStateRow q))
  | Some row =>
    match row !! string_of_rune r with
    | None => ("", Some (ErrUnknownSymbol (string_of_rune r) q))
    | Some nextState => fsm.run_loop transitions nextState rest
    end
  end.
Proof. reflexivity. Qed.

Lemma state_of_row n : 0 <= n < 3 ->
  exists x y, T !! state_of n = Some (<["0" := x]> (<["1" := y]> ∅)) /\
    (exists m, 0 <= m < 3 /\ x = state_of m) /\ (exists m, 0 <= m < 3 /\ y = state_of m).
Proof.
  intros Hn. remainder_cases n.
  - exists "S0", "S1". split; [reflexivity|]. split; [by exists 0 | by exists 1].
  - exists "S2", "S0". split; [reflexivity|]. split; [by exists 2 | by exists 0].
  - exists "S1", "S2". split; [reflexivity|]. split; [by exists 1 | by exists 2].
Qed.

(** On any characters at all the engine either stops in one of the
    three states, or fails with [ErrUnknownSymbol] at the first
    character that is neither '0' nor '1'. *)
Lemma run_loop_outcome chars n :
  0 <= n < 3 ->
  (Forall (fun r => r = 48 \/ r = 49) chars /\
   exists m, 0 <= m < 3 /\ fsm.run_loop T (state_of n) chars = (state_of m, None)) \/
  (Exists (fun r => r <> 48 /\ r <> 49) chars /\
   exists sym q, fsm.run_loop T (state_of n) chars = ("", Some (ErrUnknownSymbol sym q))).
Proof.
  revert n. induction chars as [|r chars IH]; intros n Hn.
  - left. split; [constructor|]. exists n. by split.
  - destruct (state_of_row n Hn) as (x & y & Hrow & (mx & Hmx & ->) & (my & Hmy & ->)).
    rewrite run_loop_cons, Hrow, row_lookup.
    destruct (Z.eqb_spec r 48) as [->|H0].
    { destruct (IH mx Hmx) as [[Hall Hres]|[Hex Hres]].
      - left. split; [constructor; auto | done].
      - right. split; [by apply Exists_cons_tl | done]. }
    destruct (Z.eqb_spec r 49) as [->|H1].
    { destruct (IH my Hmy) as [[Hall Hres]|[Hex Hres]].
      - left. split; [constructor; auto | done].
      - right. split; [by apply Exists_cons_tl | done]. }
    right. split; [by apply Exists_cons_hd | eauto].
Qed.

Section AnyEngine.
Context {A : Type} `{fsm.Automaton A}.

(** [Calculate], call by call. *)
Lemma Calculate_unfold (c : ModThreeCalculator A) input :
  Calculate c input =
  if trimsToEmpty input then (0, None)
  else
    let '(finalState, err) := fsm.automaton_Run (fa c) input in
    match err with
    | Some e => (-1, Some e)
    | None =>
      if negb (fsm.automaton_IsAccepting (fa c) finalState)
      then (-1, Some (ErrNonAccepting finalState))
      else if stateToRemainder finalState =? -1
           then (-1, Some (ErrUnknownState finalState))
           else (stateToRemainder finalState, None)
    end.
Proof.
  unfold Calculate, Calculate_body.
  destruct (trimsToEmpty input); [reflexivity|]. simpl.
  destruct (fsm.automaton_Run (fa c) input) as [finalState [e|]]; [reflexivity|].
  simpl. destruct (fsm.automaton_IsAccepting (fa c) finalState); simpl; [|reflexivity].
  by destruct (stateToRemainder finalState =? -1).
Qed.

Lemma Calculate_sentinel (c : ModThreeCalculator A) input :
  (snd (Calculate c input) <> None <-> fst (Calculate c input) = -1) /\
  (snd (Calculate c input) = None -> 0 <= fst (Calculate c input) <= 2).
Proof.
  rewrite Calculate_unfold.
  destruct (trimsToEmpty input); [simpl; split; [split; [done|lia] | lia]|].
  destruct (fsm.automaton_Run (fa c) input) as [finalState [e|]];
    [simpl; split; [split; done | done]|].
  destruct (fsm.automaton_IsAccepting (fa c) finalState); simpl;
    [|split; [split; done | done]].
  destruct (Z.eqb_spec (stateToRemainder finalState) (-1)) as [E|E]; simpl;
    [split; [split; done | done]|].
  pose proof (stateToRemainder_range finalState).
  split; [split; [done|lia] | lia].
Qed.
End AnyEngine.

Lemma is_bit_cases c : is_bit c = true <-> c = "0"%char \/ c = "1"%char.
Proof.
  unfold is_bit. rewrite orb_true_iff, !Ascii.eqb_eq. done.
Qed.

Lemma byte_val_inj c d : byte_val c = byte_val d -> c = d.
Proof.
  intros E. by rewrite <- (chr_byte_val c), <- (chr_byte_val d), E.
Qed.

Lemma is_binary_runes s :
  is_binary s = true -> Forall (fun r => r = 48 \/ r = 49) (runes s).
Proof.
  induction s as [|c s IH]; simpl is_binary; [constructor|].
  intros [Hc Hs]%andb_true_iff.
  apply is_bit_byte in Hc as [Hc Hb].
  rewrite runes_ascii by lia. constructor; [lia | auto].
Qed.

Lemma not_binary_foreign s : is_binary s = false -> has_foreign_char s.
Proof.
  induction s as [|c s IH]; simpl is_binary; [discriminate|].
  destruct (is_bit c) eqn:Hc; simpl.
  - intros (r & Hr & Hne)%IH. apply is_bit_byte in Hc as [Hc Hb].
    exists r. rewrite runes_ascii by lia. split; [by right | done].
  - intros _. destruct (Z_lt_le_dec (byte_val c) 128) as [Hlow|Hhigh].
    + exists (byte_val c). rewrite runes_ascii by done. split; [by left|].
      split; intros E.
      * apply (byte_val_inj c "0") in E. by rewrite E in Hc.
      * apply (byte_val_inj c "1") in E. by rewrite E in Hc.
    + destruct (runes_head_high c s Hhigh) as (r & rest & E & Hr).
      exists r. rewrite E. split; [by left | lia].
Qed.

Lemma foreign_byte_not_binary s : has_foreign_byte s -> is_binary s = false.
Proof.
  intros (c & Hin & Hc). induction s as [|d s IH]; simpl in *.
  - by apply elem_of_nil in Hin.
  - apply elem_of_cons in Hin as [<-|Hin]; [by rewrite Hc|].
    rewrite IH by done. apply andb_false_r.
Qed.

Lemma foreign_char_not_binary s : has_foreign_char s -> is_binary s = false.
Proof.
  intros (r & Hin & H0 & H1). destruct (is_binary s) eqn:E; [|done].
  apply is_binary_runes in E. rewrite Forall_forall in E.
  destruct (E r Hin); lia.
Qed.

(** A binary numeral that trims to the empty string is the empty string. *)
Lemma binary_blank_empty s :
  is_binary s = true -> trimsToEmpty s = true -> s = "".
Proof.
  rewrite trimsToEmpty_spec. destruct s as [|c s]; [done|].
  simpl is_binary. intros [Hc _]%andb_true_iff.
  apply is_bit_cases in Hc as [-> | ->]; discriminate.
Qed.

Lemma is_blank_trims s : is_blank s = true -> trimsToEmpty s = true.
Proof.
  rewrite trimsToEmpty_spec.
  induction s as [|c s IH]; simpl is_blank; [done|].
  intros [Hc Hs]%andb_true_iff.
  rewrite !orb_true_iff, !Ascii.eqb_eq in Hc.
  destruct Hc as [[-> | ->] | ->]; rewrite runes_ascii by reflexivity;
    simpl; auto.
Qed.

(** [Run] of the modulo-three automaton on any input. *)
Lemma Run_outcome input :
  (is_binary input = true /\
   exists m, 0 <= m < 3 /\ fsm.Run the_automaton input = (state_of m, None)) \/
  (is_binary input = false /\
   exists sym q, fsm.Run the_automaton input = ("", Some (ErrUnknownSymbol sym q))).
Proof.
  unfold fsm.Run. change (fsm.InitialState the_automaton) with (state_of 0).
  destruct (run_loop_outcome (runes input) 0) as [[Hall Hres]|[Hex Hres]]; [lia| |].
  - left. split; [|done]. destruct (is_binary input) eqn:E; [done|].
    apply not_binary_foreign in E as (r & Hr & Hne).
    rewrite Forall_forall in Hall. destruct (Hall r Hr); lia.
  - right. split; [|done]. apply foreign_char_not_binary.
    apply Exists_exists in Hex as (r & Hr & Hne). by exists r.
Qed.

Lemma Run_binary input :
  is_binary input = true ->
  fsm.Run the_automaton input = (state_of (binary_value input mod 3), None).
Proof.
  intros Hbin. unfold fsm.Run, binary_value.
  change (fsm.InitialState the_automaton) with (state_of 0).
  apply run_loop_binary; [done | lia].
Qed.

Lemma mod3_Run_same (fa : FiniteAutomaton) input :
  Run fa input = fsm.run_loop (Transitions fa) (InitialState fa) (runes input).
Proof. unfold Run. apply run_loop_same. Qed.

(** The two pipelines, on the modulo-three automaton. *)
Lemma Calculate_the_calculator input :
  Calculate the_calculator input =
  if trimsToEmpty input then (0, None)
  else match fsm.Run the_automaton input with
       | (_, Some e) => (-1, Some e)
       | (finalState, None) => (stateToRemainder finalState, None)
       end.
Proof.
  rewrite Calculate_unfold. destruct (trimsToEmpty input); [done|].
  change (fsm.automaton_Run (fa the_calculator) input)
    with (fsm.Run the_automaton input).
  destruct (Run_outcome input) as [(_ & m & Hm & ->)|(_ & sym & q & ->)]; [|done].
  change (fsm.automaton_IsAccepting (fa the_calculator) (state_of m))
    with (fsm.IsAccepting the_automaton (state_of m)).
  rewrite IsAccepting_state_of, stateToRemainder_state_of by done. simpl negb. cbv iota.
  destruct (Z.eqb_spec m (-1)); [lia | done].
Qed.

Lemma ModThree_unfold input :
  ModThree input =
  if trimsToEmpty input then 0
  else match fsm.Run the_automaton input with
       | (_, Some e) => -1
       | (finalState, None) => stateToRemainder finalState
       end.
Proof.
  unfold ModThree, modThree. destruct (trimsToEmpty input); [done|].
  change (automaton_Run ModThreeFA input) with (Run ModThreeFA input).
  by rewrite mod3_Run_same.
Qed.

End mod3_facts.

(** * The claims *)

Import spec.

(** ** The engine: construction *)

(** C2, as stated, fails: the four invariants do not suffice for
    [NewFiniteAutomaton] to succeed.  With one declared state, an empty
    alphabet and an empty transition table all four invariants hold (the
    third and the fourth have nothing to check), and the constructor
    still returns the error "Missing transition rules for state 'A'". *)
Lemma NewFiniteAutomaton_four_invariants_not_enough :
  four_invariants ["A"] [] "A" [] ∅ /\
  fsm.NewFiniteAutomaton ["A"] [] "A" [] ∅ = (None, Some (ErrMissingRules "A")).
Proof.
  split; [|reflexivity]. repeat split.
  - unfold initial_declared. by left.
  - intros f Hf. by apply elem_of_nil in Hf.
  - intros s a _ Ha. by apply elem_of_nil in Ha.
  - intros s a row t _ Ha. by apply elem_of_nil in Ha.
Qed.

(** C2, amended.  [NewFiniteAutomaton] succeeds if and only if the
    configuration satisfies the four invariants and every declared state
    has a row in the transition table; when the alphabet is not empty the
    rows follow from the third invariant, and the four invariants alone
    decide.  On any violation it returns an error and no automaton.  On
    success the automaton returned holds the declared states, alphabet
    and accepting states as sets, the given initial state and
    transitions, and satisfies the four invariants: its transition
    function is total and closed over its states and alphabet. *)
Theorem NewFiniteAutomaton_succeeds_iff
    (states alphabet : list string) (initialState : string)
    (acceptingStates : list string)
    (transitions : gmap string (gmap string string)) :
  let result :=
    fsm.NewFiniteAutomaton states alphabet initialState acceptingStates transitions in
  let invariants :=
    four_invariants states alphabet initialState acceptingStates transitions in
  ((exists fa, result = (Some fa, None)) <->
   invariants /\ rows_present states transitions) /\
  (alphabet <> [] -> ((exists fa, result = (Some fa, None)) <-> invariants)) /\
  (~ (invariants /\ rows_present states transitions) ->
   exists e, result = (None, Some e)) /\
  (forall fa, result = (Some fa, None) ->
     automaton_invariants fa /\
     (forall s, is_Some (fsm.States fa !! s) <-> s ∈ states) /\
     (forall a, is_Some (fsm.Alphabet fa !! a) <-> a ∈ alphabet) /\
     (forall f, is_Some (fsm.AcceptingStates fa !! f) <-> f ∈ acceptingStates) /\
     fsm.InitialState fa = initialState /\
     fsm.Transitions fa = transitions).
Proof.
  intros result invariants.
  pose proof (fsm_facts.constructor_succeeds_iff
                states alphabet initialState acceptingStates transitions) as Hiff.
  fold result invariants in Hiff.
  split; [exact Hiff|]. split; [|split].
  - intros Hne. rewrite Hiff. split; [tauto|]. intros Hinv. split; [done|].
    destruct Hinv as (_ & _ & Htot & _).
    by apply (fsm_facts.total_rows_present states alphabet).
  - intros Hnot.
    destruct (fsm_facts.NewFiniteAutomaton_shape
                states alphabet initialState acceptingStates transitions)
      as [Hok|Herr]; [|exact Herr].
    destruct Hnot. by apply Hiff.
  - intros fa Hfa. split.
    + by apply (fsm_facts.constructed_invariants
                  states alphabet initialState acceptingStates transitions).
    + apply fsm_facts.NewFiniteAutomaton_Some in Hfa as (-> & _). simpl.
      repeat split; try apply fsm_facts.make_set_lookup.
Qed.

(** The configuration of the modulo-three calculator passes the
    constructor, and the automaton built satisfies the invariants. *)
Lemma NewFiniteAutomaton_succeeds_iff_witness :
  fsm.NewFiniteAutomaton
    (mod3.States mod3.GetModThreeConfig) (mod3.Alphabet mod3.GetModThreeConfig)
    (mod3.InitialState mod3.GetModThreeConfig)
    (mod3.AcceptingStates mod3.GetModThreeConfig)
    (mod3.Transitions mod3.GetModThreeConfig) = (Some the_automaton, None) /\
  automaton_invariants the_automaton.
Proof.
  split; [reflexivity|].
  exact (proj1 (proj2 (proj2 (proj2 (NewFiniteAutomaton_succeeds_iff
    (mod3.States mod3.GetModThreeConfig) (mod3.Alphabet mod3.GetModThreeConfig)
    (mod3.InitialState mod3.GetModThreeConfig)
    (mod3.AcceptingStates mod3.GetModThreeConfig)
    (mod3.Transitions mod3.GetModThreeConfig)))) the_automaton eq_refl)).
Defined.

(** ** The engine: execution *)

(** C3.  For every automaton that [NewFiniteAutomaton] returns and every
    input that [ValidateInput] accepts, [Run] returns a state and no
    error (neither error branch is taken), and the state is one of the
    declared states. *)
Theorem Run_total_on_valid_input
    (states alphabet : list string) (initialState : string)
    (acceptingStates : list string)
    (transitions : gmap string (gmap string string))
    (fa : fsm.FiniteAutomaton) (input : string) :
  fsm.NewFiniteAutomaton states alphabet initialState acceptingStates transitions
    = (Some fa, None) ->
  fsm.ValidateInput fa input = true ->
  exists q, fsm.Run fa input = (q, None) /\
            is_Some (fsm.States fa !! q) /\ q ∈ states.
Proof.
  intros Hnew Hvalid.
  pose proof (fsm_facts.constructed_invariants _ _ _ _ _ _ Hnew) as Hinv.
  apply fsm_facts.validate_loop_Forall in Hvalid.
  destruct (fsm_facts.run_loop_closed fa (fsm.InitialState fa) (runes input)
              Hinv (proj1 Hinv) Hvalid) as (q & Hrun & Hq).
  exists q. split; [done|]. split; [done|].
  apply fsm_facts.NewFiniteAutomaton_Some in Hnew as (-> & _).
  by apply fsm_facts.make_set_lookup.
Qed.

Lemma Run_total_on_valid_input_witness :
  fsm.NewFiniteAutomaton
    (mod3.States mod3.GetModThreeConfig) (mod3.Alphabet mod3.GetModThreeConfig)
    (mod3.InitialState mod3.GetModThreeConfig)
    (mod3.AcceptingStates mod3.GetModThreeConfig)
    (mod3.Transitions mod3.GetModThreeConfig) = (Some the_automaton, None) /\
  fsm.ValidateInput the_automaton "1101" = true /\
  exists q, fsm.Run the_automaton "1101" = (q, None) /\
            is_Some (fsm.States the_automaton !! q) /\
            q ∈ mod3.States mod3.GetModThreeConfig.
Proof.
  split; [reflexivity|]. split; [reflexivity|].
  exact (Run_total_on_valid_input
    (mod3.States mod3.GetModThreeConfig) (mod3.Alphabet mod3.GetModThreeConfig)
    (mod3.InitialState mod3.GetModThreeConfig)
    (mod3.AcceptingStates mod3.GetModThreeConfig)
    (mod3.Transitions mod3.GetModThreeConfig) the_automaton "1101" eq_refl eq_refl).
Defined.

(** C4.  [Run] succeeds with a state exactly when the left fold of the
    transition function over the input's symbols, read left to right from
    [InitialState], is defined and is that state; on the empty input [Run]
    returns [InitialState] and no error, whatever the automaton. *)
Theorem Run_is_left_fold (fa : fsm.FiniteAutomaton) :
  (forall input q,
     fsm.Run fa input = (q, None) <->
     delta_fold fa (fsm.InitialState fa) (symbols input) = Some q) /\
  fsm.Run fa "" = (fsm.InitialState fa, None).
Proof.
  split; [|reflexivity].
  intros input q. apply fsm_facts.run_loop_fold.
Qed.

Lemma Run_is_left_fold_witness :
  fsm.Run fixtures.setupSimpleFA "abc" = ("End", None) /\
  delta_fold fixtures.setupSimpleFA "Start" ["a"; "b"; "c"] = Some "End".
Proof.
  split; [reflexivity|].
  exact (proj1 (proj1 (Run_is_left_fold fixtures.setupSimpleFA) "abc" "End") eq_refl).
Defined.

(** C8.  When, after a prefix of the input has been consumed, the current
    state has no transition row, or its row lacks the next symbol, [Run]
    returns the empty state with the error of that kind, whatever follows
    in the input.  Conversely every error of [Run] comes with the empty
    state, is one of the two execution errors, and is raised at the first
    symbol for which the transition function is undefined. *)
Theorem Run_stops_at_first_failure (fa : fsm.FiniteAutomaton) (input : string) :
  (forall pre char post p,
     runes input = (pre ++ char :: post)%list -> consumes fa pre p ->
     (fsm.Transitions fa !! p = None ->
      fsm.Run fa input = ("", Some (ErrMissingStateRow p))) /\
     (forall row, fsm.Transitions fa !! p = Some row ->
      row !! string_of_rune char = None ->
      fsm.Run fa input = ("", Some (ErrUnknownSymbol (string_of_rune char) p)))) /\
  (forall q e, fsm.Run fa input = (q, Some e) ->
     q = "" /\ is_execution_error e = true /\
     exists pre char post p,
       runes input = (pre ++ char :: post)%list /\ consumes fa pre p /\
       delta fa p (string_of_rune char) = None /\
       (e = ErrMissingStateRow p \/
        e = ErrUnknownSymbol (string_of_rune char) p)).
Proof.
  split.
  - intros pre char post p Hsplit Hpre. unfold fsm.Run. rewrite Hsplit.
    rewrite (fsm_facts.run_loop_app fa _ pre (char :: post) p Hpre).
    split.
    + intros Hrow. simpl. by rewrite Hrow.
    + intros row Hrow Hsym. simpl. by rewrite Hrow, Hsym.
  - intros q e Hrun.
    apply fsm_facts.run_loop_failure in Hrun
      as (-> & pre & char & post & p & Hsplit & Hpre & Hfail).
    split; [done|].
    destruct Hfail as [[Hrow ->]|(row & Hrow & Hsym & ->)].
    + split; [done|]. exists pre, char, post, p.
      repeat split; auto. unfold delta. by rewrite Hrow.
    + split; [done|]. exists pre, char, post, p.
      repeat split; auto. unfold delta. by rewrite Hrow.
Qed.

(** [TestFiniteAutomaton_Run], case MissingTransition: on "xb" the engine
    reads 'x', reaches "Fail", and stops at 'b'. *)
Lemma Run_stops_at_first_failure_witness :
  runes "xbc" = ([120] ++ 98 :: [99])%list%Z /\
  consumes fixtures.setupSimpleFA [120%Z] "Fail" /\
  fsm.Transitions fixtures.setupSimpleFA !! "Fail" = None /\
  fsm.Run fixtures.setupSimpleFA "xbc" = ("", Some (ErrMissingStateRow "Fail")).
Proof.
  split; [reflexivity|]. split; [reflexivity|]. split; [reflexivity|].
  exact (proj1 (proj1 (Run_stops_at_first_failure fixtures.setupSimpleFA "xbc")
                  [120%Z] 98%Z [99%Z] "Fail" eq_refl eq_refl) eq_refl).
Defined.

(** C9.  [ValidateInput] returns true if and only if every character of
    the input is a member of the declared alphabet; it returns true on
    the empty input; and one character outside the alphabet, wherever it
    stands, makes it return false. *)
Theorem ValidateInput_iff (fa : fsm.FiniteAutomaton) (input : string) :
  (fsm.ValidateInput fa input = true <-> Forall (in_alphabet fa) (runes input)) /\
  fsm.ValidateInput fa "" = true /\
  (forall pre char post,
     runes input = (pre ++ char :: post)%list ->
     ~ in_alphabet fa char ->
     fsm.ValidateInput fa input = false).
Proof.
  assert (fsm.ValidateInput fa input = true <-> Forall (in_alphabet fa) (runes input))
    as Hiff by apply fsm_facts.validate_loop_Forall.
  split; [exact Hiff|]. split; [reflexivity|].
  intros pre char post Hsplit Hout.
  destruct (fsm.ValidateInput fa input) eqn:E; [|done].
  destruct Hout. pose proof (proj1 Hiff eq_refl) as HF. rewrite Hsplit in HF.
  apply Forall_app in HF as [_ HF]. by apply Forall_cons in HF as [HF _].
Qed.

(** [TestFiniteAutomaton_ValidateInput], invalid symbol in the middle. *)
Lemma ValidateInput_iff_witness :
  runes "abz01" = ([97; 98] ++ 122 :: [48; 49])%list%Z /\
  fsm.Alphabet fixtures.commonAlphabetFA !! string_of_rune 122%Z = None /\
  fsm.ValidateInput fixtures.commonAlphabetFA "abz01" = false.
Proof.
  split; [reflexivity|]. split; [reflexivity|].
  refine (proj2 (proj2 (ValidateInput_iff fixtures.commonAlphabetFA "abz01"))
            [97; 98]%Z 122%Z [48; 49]%Z eq_refl _).
  intros [b Hb]. discriminate Hb.
Defined.

(** ** The modulo-three calculator *)

Local Open Scope Z_scope.

(** C1.  On the calculator built from [GetModThreeConfig], [Calculate]
    of a string of '0' and '1' only, of any length, returns the remainder
    modulo 3 of the number the string denotes in binary, most-significant
    bit first (0 for the empty string), with no error; the remainder is
    0, 1 or 2.  In particular "110" gives 0, "101" gives 2, and "10"
    repeated 100 times gives 2. *)
Theorem Calculate_binary_numeral
    (calc : mod3.ModThreeCalculator fsm.FiniteAutomaton) :
  mod3.NewModThreeCalculator mod3.GetModThreeConfig = (Some calc, None) ->
  (forall input, is_binary input = true ->
     mod3.Calculate calc input = (binary_value input mod 3, None) /\
     0 <= binary_value input mod 3 <= 2) /\
  mod3.Calculate calc "" = (0, None) /\
  mod3.Calculate calc "110" = (0, None) /\
  mod3.Calculate calc "101" = (2, None) /\
  mod3.Calculate calc (Repeat "10" 100) = (2, None).
Proof.
  intros ->%mod3_facts.NewModThreeCalculator_inv.
  assert (forall input, is_binary input = true ->
            mod3.Calculate the_calculator input = (binary_value input mod 3, None) /\
            0 <= binary_value input mod 3 <= 2) as Hgen.
  { intros input Hbin.
    assert (0 <= binary_value input mod 3 < 3) as Hrange
      by (apply Z.mod_pos_bound; lia).
    split; [|lia].
    rewrite mod3_facts.Calculate_the_calculator.
    destruct (trimsToEmpty input) eqn:Hblank.
    - by rewrite (mod3_facts.binary_blank_empty input Hbin Hblank).
    - rewrite mod3_facts.Run_binary by done.
      by rewrite mod3_facts.stateToRemainder_state_of. }
  split; [exact Hgen|].
  split; [exact (proj1 (Hgen "" eq_refl))|].
  split; [exact (proj1 (Hgen "110" eq_refl))|].
  split; [exact (proj1 (Hgen "101" eq_refl))|].
  exact (proj1 (Hgen (Repeat "10" 100) eq_refl)).
Qed.

Lemma Calculate_binary_numeral_witness :
  mod3.NewModThreeCalculator mod3.GetModThreeConfig = (Some the_calculator, None) /\
  is_binary "1101" = true /\
  mod3.Calculate the_calculator "1101" = (1, None).
Proof.
  split; [reflexivity|]. split; [reflexivity|].
  exact (proj1 (proj1 (Calculate_binary_numeral the_calculator eq_refl)
                  "1101" eq_refl)).
Defined.

(** C7.  Whatever engine the calculator holds, [Calculate] of an input
    that is empty after trimming white space returns remainder 0 and no
    error, and makes no call on the engine: [Run] is not invoked.  The
    empty string and the strings of spaces, tabs and newlines only are
    such inputs. *)
Theorem Calculate_blank_input (A : Type) (engine : fsm.Automaton A)
    (c : mod3.ModThreeCalculator A) :
  (forall input, trimsToEmpty input = true ->
     mod3.Calculate c input = (0, None) /\ mod3.Calculate_calls c input = []) /\
  (forall input, is_blank input = true ->
     mod3.Calculate c input = (0, None) /\ mod3.Calculate_calls c input = []) /\
  mod3.Calculate c "" = (0, None) /\ mod3.Calculate_calls c "" = [].
Proof.
  assert (forall input, trimsToEmpty input = true ->
     mod3.Calculate c input = (0, None) /\ mod3.Calculate_calls c input = [])
    as Hgen.
  { intros input Hblank.
    unfold mod3.Calculate, mod3.Calculate_calls, mod3.Calculate_body.
    by rewrite Hblank. }
  split; [exact Hgen|]. split.
  - intros input Hblank. by apply Hgen, mod3_facts.is_blank_trims.
  - by apply Hgen.
Qed.

(** A tab, a newline, two spaces and a carriage return, given to a
    calculator whose engine fails on every [Run]. *)
Lemma Calculate_blank_input_witness :
  let input := String "009" (String "010" (String " " (String " " (String "013" "")))) in
  let c := {| mod3.fa := fixtures.FailingMock |} in
  trimsToEmpty input = true /\
  fsm.automaton_Run (mod3.fa c) input = ("", Some (ErrMissingStateRow "mock")) /\
  mod3.Calculate c input = (0, None) /\
  mod3.Calculate_calls c input = [].
Proof.
  split; [reflexivity|]. split; [reflexivity|].
  exact (proj1 (Calculate_blank_input _ _ {| mod3.fa := fixtures.FailingMock |})
           (String "009" (String "010" (String " " (String " " (String "013" "")))))
           eq_refl).
Defined.

(** C5.  Whatever engine the calculator holds, [Calculate] returns an
    error if and only if it returns the remainder -1, and a result without
    error is a remainder 0, 1 or 2.  On the calculator built from
    [GetModThreeConfig], an input that does not trim to the empty string
    and contains a character (or a byte) other than '0' and '1' gives -1
    and an error. *)
Theorem Calculate_error_iff_sentinel :
  (forall (A : Type) (engine : fsm.Automaton A)
          (c : mod3.ModThreeCalculator A) (input : string),
     (snd (mod3.Calculate c input) <> None <-> fst (mod3.Calculate c input) = -1) /\
     (snd (mod3.Calculate c input) = None ->
      0 <= fst (mod3.Calculate c input) <= 2)) /\
  (forall calc input,
     mod3.NewModThreeCalculator mod3.GetModThreeConfig = (Some calc, None) ->
     trimsToEmpty input = false ->
     has_foreign_char input \/ has_foreign_byte input ->
     exists e, mod3.Calculate calc input = (-1, Some e)).
Proof.
  split.
  - intros A engine c input. apply mod3_facts.Calculate_sentinel.
  - intros calc input ->%mod3_facts.NewModThreeCalculator_inv Hblank Hforeign.
    assert (is_binary input = false) as Hbin.
    { destruct Hforeign as [H|H].
      - by apply mod3_facts.foreign_char_not_binary.
      - by apply mod3_facts.foreign_byte_not_binary. }
    rewrite mod3_facts.Calculate_the_calculator, Hblank.
    destruct (mod3_facts.Run_outcome input)
      as [(Hb & _)|(_ & sym & q & ->)]; [congruence | eauto].
Qed.

(** [TestCalculator_ErrorPaths]: "1A0", "1 0" and the like. *)
Lemma Calculate_error_iff_sentinel_witness :
  mod3.NewModThreeCalculator mod3.GetModThreeConfig = (Some the_calculator, None) /\
  trimsToEmpty "1 0" = false /\
  has_foreign_byte "1 0" /\
  exists e, mod3.Calculate the_calculator "1 0" = (-1, Some e).
Proof.
  assert (has_foreign_byte "1 0") as Hforeign.
  { exists " "%char. split; [|reflexivity]. right. left. }
  split; [reflexivity|]. split; [reflexivity|]. split; [exact Hforeign|].
  exact (proj2 Calculate_error_iff_sentinel the_calculator "1 0"
           eq_refl eq_refl (or_intror Hforeign)).
Defined.

(** C6.  The code does not do what the claim says.  [Calculate] has no
    validation step: it never calls [ValidateInput], and an input with a
    character other than '0' and '1' is handed to [Run], whose execution
    error [ErrUnknownSymbol] is returned as it is with the remainder -1.
    On "1A0" the engine has read '1', is in state S1, and fails on 'A';
    [Run] is the one call made on the engine. *)
Theorem Calculate_foreign_char_is_Run_error :
  mod3.NewModThreeCalculator mod3.GetModThreeConfig = (Some the_calculator, None) /\
  fsm.ValidateInput the_automaton "1A0" = false /\
  fsm.Run the_automaton "1A0" = ("", Some (ErrUnknownSymbol "A" "S1")) /\
  mod3.Calculate the_calculator "1A0" = (-1, Some (ErrUnknownSymbol "A" "S1")) /\
  is_execution_error (ErrUnknownSymbol "A" "S1") = true /\
  mod3.Calculate_calls the_calculator "1A0" = [mod3.MRun "1A0"] /\
  (forall input, trimsToEmpty input = false -> has_foreign_char input ->
     exists sym q,
       fsm.Run the_automaton input = ("", Some (ErrUnknownSymbol sym q)) /\
       mod3.Calculate the_calculator input = (-1, Some (ErrUnknownSymbol sym q)) /\
       mod3.Calculate_calls the_calculator input = [mod3.MRun input]).
Proof.
  do 6 (split; [reflexivity|]).
  intros input Hblank Hforeign%mod3_facts.foreign_char_not_binary.
  destruct (mod3_facts.Run_outcome input)
    as [(Hb & _)|(_ & sym & q & Hrun)]; [congruence|].
  exists sym, q. split; [done|]. split.
  - by rewrite mod3_facts.Calculate_the_calculator, Hblank, Hrun.
  - unfold mod3.Calculate_calls, mod3.Calculate_body. rewrite Hblank.
    cbn [mod3.calls].
    change (fsm.automaton_Run (mod3.fa the_calculator) input)
      with (fsm.Run the_automaton input).
    by rewrite Hrun.
Qed.

(** C10.  [ModThree], which runs the engine of package mod3 and maps the
    state with [StateToRemainder], returns on every input the remainder
    component of [Calculate] on the calculator built from
    [GetModThreeConfig]: 0 when the input trims to the empty string, -1
    exactly when [Calculate] returns an error, and the same remainder 0,
    1 or 2 otherwise. *)
Theorem ModThree_agrees_with_Calculate
    (calc : mod3.ModThreeCalculator fsm.FiniteAutomaton) (input : string) :
  mod3.NewModThreeCalculator mod3.GetModThreeConfig = (Some calc, None) ->
  mod3.ModThree input = fst (mod3.Calculate calc input) /\
  (trimsToEmpty input = true -> mod3.ModThree input = 0) /\
  (mod3.ModThree input = -1 <-> snd (mod3.Calculate calc input) <> None) /\
  (snd (mod3.Calculate calc input) = None -> 0 <= mod3.ModThree input <= 2).
Proof.
  intros ->%mod3_facts.NewModThreeCalculator_inv.
  rewrite mod3_facts.ModThree_unfold, mod3_facts.Calculate_the_calculator.
  destruct (trimsToEmpty input).
  { simpl. repeat split; try done; lia. }
  destruct (mod3_facts.Run_outcome input)
    as [(_ & m & Hm & ->)|(_ & sym & q & ->)]; simpl.
  - rewrite mod3_facts.stateToRemainder_state_of by done.
    repeat split; try done; lia.
  - repeat split; try done; lia.
Qed.

Lemma ModThree_agrees_with_Calculate_witness :
  mod3.NewModThreeCalculator mod3.GetModThreeConfig = (Some the_calculator, None) /\
  mod3.ModThree "1101" = 1 /\
  mod3.ModThree "1101" = fst (mod3.Calculate the_calculator "1101").
Proof.
  split; [reflexivity|]. split; [reflexivity|].
  exact (proj1 (ModThree_agrees_with_Calculate the_calculator "1101" eq_refl)).
Defined.

(** * Further properties *)

(** ** The constructor's errors *)

Module constructor_facts.

Import fsm spec fsm_facts.

(** The accepting-state loop stops at the first state that is not
    declared. *)
Lemma check_accepting_Some stateSet acc e :
  check_accepting stateSet acc = Some e <->
  exists pre f post,
    acc = (pre ++ f :: post)%list /\
    (forall x, x ∈ pre -> is_Some (stateSet !! x)) /\
    stateSet !! f = None /\ e = ErrAcceptingState f.
Proof.
  induction acc as [|x acc IH]; simpl.
  - split; [discriminate|]. intros (pre & f & post & E & _).
    by destruct pre.
  - destruct (stateSet !! x) eqn:Ex.
    + rewrite IH. split.
      * intros (pre & f & post & -> & Hpre & Hf & ->).
        exists (x :: pre), f, post. repeat split; auto.
        intros y [->|Hy]%elem_of_cons; [by rewrite Ex | auto].
      * intros (pre & f & post & E & Hpre & Hf & ->).
        destruct pre as [|y pre]; simpl in E; injection E as E1 E2; subst.
        { congruence. }
        exists pre, f, post. repeat split; auto.
        intros z Hz. apply Hpre. by right.
    + split.
      * intros [= <-]. exists [], x, acc. repeat split; auto.
        intros y Hy. by apply elem_of_nil in Hy.
      * intros (pre & f & post & E & Hpre & Hf & ->).
        destruct pre as [|y pre]; simpl in E; injection E as E1 E2; subst; [done|].
        edestruct Hpre as [? Hx]; [by left | congruence].
Qed.

Lemma check_row_Some stateSet s row alphabet e :
  check_row stateSet s row alphabet = Some e <->
  exists pre a post,
    alphabet = (pre ++ a :: post)%list /\
    (forall x, x ∈ pre -> served stateSet row x) /\
    ((row !! a = None /\ e = ErrMissingTransition s a) \/
     (exists t, row !! a = Some t /\ stateSet !! t = None /\
                e = ErrUndefinedTarget s a t)).
Proof.
  induction alphabet as [|x alphabet IH]; simpl.
  - split; [discriminate|]. intros (pre & a & post & E & _).
    by destruct pre.
  - destruct (row !! x) as [t|] eqn:Ex; [destruct (stateSet !! t) eqn:Et|].
    + rewrite IH. split.
      * intros (pre & a & post & -> & Hpre & Hfail).
        exists (x :: pre), a, post. repeat split; auto.
        intros y [->|Hy]%elem_of_cons; [|auto].
        exists t. by rewrite Et.
      * intros (pre & a & post & E & Hpre & Hfail).
        destruct pre as [|y pre]; simpl in E; injection E as E1 E2; subst.
        { destruct Hfail as [[? _]|(t' & ? & ? & _)]; congruence. }
        exists pre, a, post. repeat split; auto.
        intros z Hz. apply Hpre. by right.
    + split.
      * intros [= <-]. exists [], x, alphabet. repeat split; eauto.
        intros y Hy. by apply elem_of_nil in Hy.
      * intros (pre & a & post & E & Hpre & Hfail).
        destruct pre as [|y pre]; simpl in E; injection E as E1 E2; subst.
        { destruct Hfail as [[? _]|(t' & ? & ? & ->)]; congruence. }
        edestruct Hpre as (t' & ? & [? ?]); [by left | congruence].
    + split.
      * intros [= <-]. exists [], x, alphabet. repeat split; eauto.
        intros y Hy. by apply elem_of_nil in Hy.
      * intros (pre & a & post & E & Hpre & Hfail).
        destruct pre as [|y pre]; simpl in E; injection E as E1 E2; subst.
        { destruct Hfail as [[? ->]|(t' & ? & _)]; congruence. }
        edestruct Hpre as (t' & ? & _); [by left | congruence].
Qed.

Lemma check_transitions_Some stateSet alphabet transitions states e :
  check_transitions stateSet alphabet transitions states = Some e <->
  exists pre s post,
    states = (pre ++ s :: post)%list /\
    (forall p, p ∈ pre ->
       exists row, transitions !! p = Some row /\
                   check_row stateSet p row alphabet = None) /\
    ((transitions !! s = None /\ e = ErrMissingRules s) \/
     (exists row, transitions !! s = Some row /\
                  check_row stateSet s row alphabet = Some e)).
Proof.
  induction states as [|x states IH]; simpl.
  - split; [discriminate|]. intros (pre & a & post & E & _).
    by destruct pre.
  - destruct (transitions !! x) as [row|] eqn:Ex;
      [destruct (check_row stateSet x row alphabet) as [e'|] eqn:Er|].
    + split.
      * intros [= <-]. exists [], x, states. repeat split; eauto.
        intros y Hy. by apply elem_of_nil in Hy.
      * intros (pre & s & post & E & Hpre & Hfail).
        destruct pre as [|y pre]; simpl in E; injection E as E1 E2; subst.
        { destruct Hfail as [[? _]|(row' & ? & ?)]; congruence. }
        edestruct Hpre as (row' & ? & ?); [by left | congruence].
    + rewrite IH. split.
      * intros (pre & s & post & -> & Hpre & Hfail).
        exists (x :: pre), s, post. repeat split; auto.
        intros y [->|Hy]%elem_of_cons; eauto.
      * intros (pre & s & post & E & Hpre & Hfail).
        destruct pre as [|y pre]; simpl in E; injection E as E1 E2; subst.
        { destruct Hfail as [[? _]|(row' & ? & ?)]; congruence. }
        exists pre, s, post. repeat split; auto.
        intros z Hz. apply Hpre. by right.
    + split.
      * intros [= <-]. exists [], x, states. repeat split; eauto.
        intros y Hy. by apply elem_of_nil in Hy.
      * intros (pre & s & post & E & Hpre & Hfail).
        destruct pre as [|y pre]; simpl in E; injection E as E1 E2; subst.
        { destruct Hfail as [[? ->]|(row' & ? & ?)]; congruence. }
        edestruct Hpre as (row' & ? & _); [by left | congruence].
Qed.

End constructor_facts.

Module violation_facts.
Import fsm fsm_facts constructor_facts.

Lemma served_serves states row a :
  served (make_set states) row a <-> serves states row a.
Proof.
  unfold served, serves. split; intros (t & Ht & Hin); exists t;
    (split; [done|]); by apply make_set_lookup.
Qed.

Lemma check_row_complete states s row alphabet :
  check_row (make_set states) s row alphabet = None <->
  forall a, a ∈ alphabet -> serves states row a.
Proof.
  rewrite check_row_None. split; intros H a Ha; apply served_serves, H, Ha.
Qed.

Section ConstructorErrors.
Variables (states alphabet : list string) (initialState : string)
          (acceptingStates : list string)
          (transitions : gmap string (gmap string string)).

Local Abbreviation result :=
  (NewFiniteAutomaton states alphabet initialState acceptingStates transitions).

(** Failure, check by check. *)
Lemma NewFiniteAutomaton_None e :
  result = (None, Some e) <->
  (make_set states !! initialState = None /\ e = ErrInitialState initialState) \/
  (is_Some (make_set states !! initialState) /\
   check_accepting (make_set states) acceptingStates = Some e) \/
  (is_Some (make_set states !! initialState) /\
   check_accepting (make_set states) acceptingStates = None /\
   check_transitions (make_set states) alphabet transitions states = Some e).
Proof.
  unfold NewFiniteAutomaton.
  destruct (make_set states !! initialState) as [b|] eqn:Ei.
  - destruct (check_accepting (make_set states) acceptingStates) as [e1|] eqn:Ea.
    + split.
      * intros [= <-]. right. left. eauto.
      * intros [[? _]|[[_ ?]|(_ & ? & _)]]; congruence.
    + destruct (check_transitions (make_set states) alphabet transitions states)
        as [e2|] eqn:Et.
      * split.
        -- intros [= <-]. right. right. eauto.
        -- intros [[? _]|[[_ ?]|(_ & _ & ?)]]; congruence.
      * split; [discriminate|].
        intros [[? _]|[[_ ?]|(_ & _ & ?)]]; congruence.
  - split.
    + intros [= <-]. by left.
    + intros [[_ ->]|[[[? ?] _]|([? ?] & _)]]; [done|discriminate..].
Qed.

(** An error of the constructor names a violation of the configuration. *)
Lemma constructor_error_violation e :
  result = (None, Some e) ->
  violation states alphabet initialState acceptingStates transitions e.
Proof.
  intros [[Hi ->]|[[Hi Ha]|(Hi & Ha & Ht)]]%NewFiniteAutomaton_None.
  - simpl. split; [done|]. by apply make_set_lookup_None.
  - apply check_accepting_Some in Ha
      as (pre & f & post & -> & _ & Hf & ->).
    simpl. split.
    + apply elem_of_app. right. by left.
    + by apply make_set_lookup_None.
  - apply check_transitions_Some in Ht
      as (pre & s & post & -> & _ & Hfail).
    assert (s ∈ (pre ++ s :: post)%list) as Hs
      by (apply elem_of_app; right; by left).
    destruct Hfail as [[Hrow ->]|(row & Hrow & Hr)]; [by simpl|].
    apply check_row_Some in Hr
      as (apre & a & apost & -> & _ & Hfail).
    assert (a ∈ (apre ++ a :: apost)%list) as Ha'
      by (apply elem_of_app; right; by left).
    destruct Hfail as [[Hlk ->]|(t & Hlk & Ht & ->)]; simpl.
    + eauto.
    + split; [done|]. split; [done|]. split; [|eauto].
      by apply make_set_lookup_None.
Qed.

End ConstructorErrors.
End violation_facts.

(** X1.  An error of [NewFiniteAutomaton] names a real violation of the
    configuration it was given: the initial state that is not declared;
    an accepting state that is not declared; a declared state with no row
    in the table; a declared state and an alphabet symbol with no entry
    in the state's row; or such an entry whose target is not declared.
    The constructor returns no other kind of error. *)
Theorem NewFiniteAutomaton_error_names_violation
    (states alphabet : list string) (initialState : string)
    (acceptingStates : list string)
    (transitions : gmap string (gmap string string)) (e : error) :
  fsm.NewFiniteAutomaton states alphabet initialState acceptingStates transitions
    = (None, Some e) ->
  violation states alphabet initialState acceptingStates transitions e.
Proof.
  apply violation_facts.constructor_error_violation.
Qed.

(** [TestNewFiniteAutomaton_Validation], case "Transition Leads to
    Undefined State". *)
Lemma NewFiniteAutomaton_error_names_violation_witness :
  fsm.NewFiniteAutomaton ["S0"; "S1"; "S2"] ["0"; "1"] "S0" ["S0"; "S1"; "S2"]
    fixtures.undefinedTargetTable
    = (None, Some (ErrUndefinedTarget "S0" "0" "S99")) /\
  violation ["S0"; "S1"; "S2"] ["0"; "1"] "S0" ["S0"; "S1"; "S2"]
    fixtures.undefinedTargetTable (ErrUndefinedTarget "S0" "0" "S99").
Proof.
  split; [reflexivity|].
  exact (NewFiniteAutomaton_error_names_violation
           ["S0"; "S1"; "S2"] ["0"; "1"] "S0" ["S0"; "S1"; "S2"]
           fixtures.undefinedTargetTable (ErrUndefinedTarget "S0" "0" "S99")
           eq_refl).
Defined.

(** X2.  [NewFiniteAutomaton] reports the first violation in the order
    of its checks.  An undeclared initial state is reported whatever else
    is wrong.  Otherwise the first undeclared accepting state, in the
    order of the slice, is reported.  Otherwise the first declared state,
    in the order of the slice, that is not complete is reported: with its
    missing row, or else with the first alphabet symbol, in the order of
    the slice, whose entry is missing or leads to an undeclared state. *)
Theorem NewFiniteAutomaton_reports_first_violation
    (states alphabet : list string) (initialState : string)
    (acceptingStates : list string)
    (transitions : gmap string (gmap string string)) :
  let result :=
    fsm.NewFiniteAutomaton states alphabet initialState acceptingStates transitions in
  (initialState ∉ states ->
   result = (None, Some (ErrInitialState initialState))) /\
  (initialState ∈ states ->
   forall pre f post,
     acceptingStates = (pre ++ f :: post)%list ->
     (forall x, x ∈ pre -> x ∈ states) -> f ∉ states ->
     result = (None, Some (ErrAcceptingState f))) /\
  (initialState ∈ states ->
   accepting_declared states acceptingStates ->
   forall pre s post,
     states = (pre ++ s :: post)%list ->
     (forall p, p ∈ pre -> complete states alphabet transitions p) ->
     (transitions !! s = None -> result = (None, Some (ErrMissingRules s))) /\
     (forall row apre a apost,
        transitions !! s = Some row ->
        alphabet = (apre ++ a :: apost)%list ->
        (forall x, x ∈ apre -> serves states row x) ->
        (row !! a = None ->
         result = (None, Some (ErrMissingTransition s a))) /\
        (forall t, row !! a = Some t -> t ∉ states ->
         result = (None, Some (ErrUndefinedTarget s a t))))).
Proof.
  intros result. split; [|split].
  - intros Hi. apply violation_facts.NewFiniteAutomaton_None. left.
    split; [|done]. by apply fsm_facts.make_set_lookup_None.
  - intros Hi pre f post Hacc Hpre Hf.
    apply violation_facts.NewFiniteAutomaton_None. right. left.
    split; [by apply fsm_facts.make_set_lookup|].
    apply constructor_facts.check_accepting_Some. exists pre, f, post.
    split; [done|]. split; [|split; [|done]].
    + intros x Hx. by apply fsm_facts.make_set_lookup, Hpre.
    + by apply fsm_facts.make_set_lookup_None.
  - intros Hi Hacc pre s post Hstates Hpre.
    assert (forall e,
      fsm.check_transitions (fsm.make_set states) alphabet transitions states
        = Some e -> result = (None, Some e)) as Hfail.
    { intros e He. apply violation_facts.NewFiniteAutomaton_None.
      right. right. split; [by apply fsm_facts.make_set_lookup|].
      split; [|exact He].
      apply fsm_facts.check_accepting_None. intros f Hf.
      by apply fsm_facts.make_set_lookup, Hacc. }
    assert (forall p, p ∈ pre ->
      exists row, transitions !! p = Some row /\
        fsm.check_row (fsm.make_set states) p row alphabet = None) as Hprefix.
    { intros p Hp. destruct (Hpre p Hp) as (row & Hrow & Hall).
      exists row. split; [done|].
      by apply violation_facts.check_row_complete. }
    split.
    + intros Hrow. apply Hfail, constructor_facts.check_transitions_Some.
      exists pre, s, post. split; [done|]. split; [done|]. by left.
    + intros row apre a apost Hrow Halpha Hapre.
      assert (forall e,
        fsm.check_row (fsm.make_set states) s row alphabet = Some e ->
        result = (None, Some e)) as Hrowfail.
      { intros e He. apply Hfail, constructor_facts.check_transitions_Some.
        exists pre, s, post. split; [done|]. split; [done|]. right. eauto. }
      assert (forall x, x ∈ apre -> served (fsm.make_set states) row x)
        as Hserved.
      { intros x Hx. by apply violation_facts.served_serves, Hapre. }
      split.
      * intros Hlk. apply Hrowfail, constructor_facts.check_row_Some.
        exists apre, a, apost. split; [done|]. split; [done|]. by left.
      * intros t Hlk Ht. apply Hrowfail, constructor_facts.check_row_Some.
        exists apre, a, apost. split; [done|]. split; [done|]. right.
        exists t. split; [done|]. split; [|done].
        by apply fsm_facts.make_set_lookup_None.
Qed.

(** [TestNewFiniteAutomaton_Validation], case "Accepting State Not in
    Q": the accepting states are S0 and S99. *)
Lemma NewFiniteAutomaton_reports_first_violation_witness :
  fsm.NewFiniteAutomaton ["S0"; "S1"; "S2"] ["0"; "1"] "S0" ["S0"; "S99"]
    (mod3.Transitions mod3.GetModThreeConfig)
  = (None, Some (ErrAcceptingState "S99")).
Proof.
  refine (proj1 (proj2 (NewFiniteAutomaton_reports_first_violation
            ["S0"; "S1"; "S2"] ["0"; "1"] "S0" ["S0"; "S99"]
            (mod3.Transitions mod3.GetModThreeConfig)))
            _ ["S0"] "S99" [] eq_refl _ _).
  - by left.
  - intros x [->|Hx]%elem_of_cons; [by left | by apply elem_of_nil in Hx].
  - intros H. repeat (apply elem_of_cons in H as [H|H]; [discriminate H|]).
    by apply elem_of_nil in H.
Defined.

(** X3.  On an automaton returned by [NewFiniteAutomaton],
    [IsAccepting] is true exactly for the accepting states given to the
    constructor; every state it accepts is a declared state, and it is
    false, without error, for a state that is not declared. *)
Theorem IsAccepting_of_constructed
    (states alphabet : list string) (initialState : string)
    (acceptingStates : list string)
    (transitions : gmap string (gmap string string))
    (fa : fsm.FiniteAutomaton) (state : string) :
  fsm.NewFiniteAutomaton states alphabet initialState acceptingStates transitions
    = (Some fa, None) ->
  (fsm.IsAccepting fa state = true <-> state ∈ acceptingStates) /\
  (fsm.IsAccepting fa state = true -> state ∈ states) /\
  (state ∉ states -> fsm.IsAccepting fa state = false).
Proof.
  intros Hnew.
  pose proof Hnew as (-> & _ & Hacc & _)%fsm_facts.NewFiniteAutomaton_Some.
  rewrite fsm_facts.check_accepting_None in Hacc.
  assert (fsm.IsAccepting
            {| fsm.States := fsm.make_set states;
               fsm.Alphabet := fsm.make_set alphabet;
               fsm.InitialState := initialState;
               fsm.AcceptingStates := fsm.make_set acceptingStates;
               fsm.Transitions := transitions |} state = true <->
          state ∈ acceptingStates) as Hiff.
  { unfold fsm.IsAccepting. simpl.
    rewrite <- fsm_facts.make_set_lookup.
    destruct (fsm.make_set acceptingStates !! state).
    - split; [eauto | done].
    - split; [discriminate | intros [? ?]; discriminate]. }
  assert (state ∈ acceptingStates -> state ∈ states) as Hsub.
  { intros Hin. by apply fsm_facts.make_set_lookup, Hacc. }
  split; [exact Hiff|]. split.
  - intros H. by apply Hsub, Hiff.
  - intros Hout. apply not_true_is_false. intros H. by apply Hout, Hsub, Hiff.
Qed.

(** The engine of [TestCalculate_AcceptanceCheck]: S1 is declared and
    does not accept. *)
Lemma IsAccepting_of_constructed_witness :
  fsm.NewFiniteAutomaton ["S0"; "S1"] ["0"] "S0" ["S0"]
    (fsm.Transitions fixtures.restrictiveFA)
    = (Some fixtures.restrictiveFA, None) /\
  (fsm.IsAccepting fixtures.restrictiveFA "S1" = true <-> "S1" ∈ ["S0"]) /\
  fsm.IsAccepting fixtures.restrictiveFA "S1" = false.
Proof.
  split; [reflexivity|]. split; [|reflexivity].
  exact (proj1 (IsAccepting_of_constructed ["S0"; "S1"] ["0"] "S0" ["S0"]
                  (fsm.Transitions fixtures.restrictiveFA)
                  fixtures.restrictiveFA "S1" eq_refl)).
Defined.

(** X4.  [NewModThreeCalculator] returns either a calculator holding
    the automaton that [NewFiniteAutomaton] built from the five fields of
    the configuration, which satisfies the invariants, or no calculator
    and the constructor's error wrapped as "failed to initialize FSM
    engine", the wrapped error naming a violation of the configuration.
    It returns a calculator exactly when the configuration satisfies the
    four invariants and every declared state has a row. *)
Theorem NewModThreeCalculator_wraps_constructor (cfg : mod3.FiniteAutomaton) :
  let constructed :=
    fsm.NewFiniteAutomaton (mod3.States cfg) (mod3.Alphabet cfg)
      (mod3.InitialState cfg) (mod3.AcceptingStates cfg) (mod3.Transitions cfg) in
  let valid :=
    four_invariants (mod3.States cfg) (mod3.Alphabet cfg) (mod3.InitialState cfg)
      (mod3.AcceptingStates cfg) (mod3.Transitions cfg) /\
    rows_present (mod3.States cfg) (mod3.Transitions cfg) in
  ((exists fa, constructed = (Some fa, None) /\
               mod3.NewModThreeCalculator cfg = (Some {| mod3.fa := fa |}, None) /\
               automaton_invariants fa) \/
   (exists e, constructed = (None, Some e) /\
              mod3.NewModThreeCalculator cfg = (None, Some (ErrInitEngine e)) /\
              violation (mod3.States cfg) (mod3.Alphabet cfg)
                (mod3.InitialState cfg) (mod3.AcceptingStates cfg)
                (mod3.Transitions cfg) e)) /\
  ((exists calc, mod3.NewModThreeCalculator cfg = (Some calc, None)) <-> valid).
Proof.
  intros constructed valid.
  assert ((exists fa, constructed = (Some fa, None) /\
               mod3.NewModThreeCalculator cfg = (Some {| mod3.fa := fa |}, None) /\
               automaton_invariants fa) \/
   (exists e, constructed = (None, Some e) /\
              mod3.NewModThreeCalculator cfg = (None, Some (ErrInitEngine e)) /\
              violation (mod3.States cfg) (mod3.Alphabet cfg)
                (mod3.InitialState cfg) (mod3.AcceptingStates cfg)
                (mod3.Transitions cfg) e)) as Hshape.
  { destruct (fsm_facts.NewFiniteAutomaton_shape (mod3.States cfg)
                (mod3.Alphabet cfg) (mod3.InitialState cfg)
                (mod3.AcceptingStates cfg) (mod3.Transitions cfg))
      as [[fa Hfa]|[e He]].
    - left. exists fa. split; [exact Hfa|]. split.
      + unfold mod3.NewModThreeCalculator. by rewrite Hfa.
      + by apply fsm_facts.constructed_invariants in Hfa.
    - right. exists e. split; [exact He|]. split.
      + unfold mod3.NewModThreeCalculator. by rewrite He.
      + by apply violation_facts.constructor_error_violation. }
  split; [exact Hshape|].
  unfold valid. rewrite <- fsm_facts.constructor_succeeds_iff.
  fold constructed. split.
  - intros [calc Hcalc].
    destruct Hshape as [(fa & Hfa & _)|(e & _ & He & _)]; [eauto | congruence].
  - intros [fa Hfa].
    destruct Hshape as [(fa' & _ & Hc & _)|(e & He & _)]; [eauto | congruence].
Qed.

(** [TestNewModThreeCalculator], case FSM_Init_Failure. *)
Lemma NewModThreeCalculator_wraps_constructor_witness :
  mod3.NewModThreeCalculator fixtures.emptyTableConfig
    = (None, Some (ErrInitEngine (ErrMissingRules "S0"))) /\
  ((exists calc, mod3.NewModThreeCalculator mod3.GetModThreeConfig
                 = (Some calc, None)) <->
   four_invariants (mod3.States mod3.GetModThreeConfig)
     (mod3.Alphabet mod3.GetModThreeConfig)
     (mod3.InitialState mod3.GetModThreeConfig)
     (mod3.AcceptingStates mod3.GetModThreeConfig)
     (mod3.Transitions mod3.GetModThreeConfig) /\
   rows_present (mod3.States mod3.GetModThreeConfig)
     (mod3.Transitions mod3.GetModThreeConfig)).
Proof.
  split; [reflexivity|].
  exact (proj2 (NewModThreeCalculator_wraps_constructor mod3.GetModThreeConfig)).
Defined.

(** X5.  Let the calculator hold any automaton returned by
    [NewFiniteAutomaton], and let the input pass [ValidateInput] and not
    trim to the empty string.  Then [Run] ends without error in a
    declared state q, and [Calculate] returns exactly one of: -1 with the
    non-accepting error for q, when q is not an accepting state; -1 with
    the unknown-state error for q, when q accepts but is none of S0, S1,
    S2; or the remainder of q and no error.  It never returns an
    execution error. *)
Theorem Calculate_on_validated_engine
    (states alphabet : list string) (initialState : string)
    (acceptingStates : list string)
    (transitions : gmap string (gmap string string))
    (fa : fsm.FiniteAutomaton) (input : string) :
  fsm.NewFiniteAutomaton states alphabet initialState acceptingStates transitions
    = (Some fa, None) ->
  fsm.ValidateInput fa input = true ->
  trimsToEmpty input = false ->
  exists q,
    fsm.Run fa input = (q, None) /\ q ∈ states /\
    (((q ∉ acceptingStates) /\
      mod3.Calculate {| mod3.fa := fa |} input = (-1, Some (ErrNonAccepting q))) \/
     (q ∈ acceptingStates /\ mod3.stateToRemainder q = -1 /\
      mod3.Calculate {| mod3.fa := fa |} input = (-1, Some (ErrUnknownState q))) \/
     (q ∈ acceptingStates /\ 0 <= mod3.stateToRemainder q <= 2 /\
      mod3.Calculate {| mod3.fa := fa |} input = (mod3.stateToRemainder q, None))).
Proof.
  intros Hnew Hvalid Hblank.
  pose proof (fsm_facts.constructed_invariants _ _ _ _ _ _ Hnew) as Hinv.
  apply fsm_facts.validate_loop_Forall in Hvalid.
  destruct (fsm_facts.run_loop_closed fa (fsm.InitialState fa) (runes input)
              Hinv (proj1 Hinv) Hvalid) as (q & Hrun & Hq).
  pose proof Hnew as (Hfa & _ & Hacc & _)%fsm_facts.NewFiniteAutomaton_Some.
  assert (q ∈ states) as Hq'.
  { rewrite Hfa in Hq. by apply fsm_facts.make_set_lookup. }
  assert (fsm.IsAccepting fa q = true <-> q ∈ acceptingStates) as Hiff.
  { rewrite Hfa. unfold fsm.IsAccepting. simpl.
    rewrite <- fsm_facts.make_set_lookup.
    destruct (fsm.make_set acceptingStates !! q).
    - split; [eauto | done].
    - split; [discriminate | intros [? ?]; discriminate]. }
  exists q. split; [exact Hrun|]. split; [exact Hq'|].
  rewrite mod3_facts.Calculate_unfold, Hblank.
  change (fsm.automaton_Run (mod3.fa {| mod3.fa := fa |}) input)
    with (fsm.Run fa input).
  change (fsm.Run fa input)
    with (fsm.run_loop (fsm.Transitions fa) (fsm.InitialState fa) (runes input)).
  rewrite Hrun.
  change (fsm.automaton_IsAccepting (mod3.fa {| mod3.fa := fa |}) q)
    with (fsm.IsAccepting fa q).
  destruct (fsm.IsAccepting fa q) eqn:Eacc; simpl negb; cbv iota.
  - assert (q ∈ acceptingStates) as Hin by by apply Hiff.
    destruct (Z.eqb_spec (mod3.stateToRemainder q) (-1)) as [E|E].
    + right. left. by rewrite E.
    + right. right. split; [done|]. split; [|done].
      pose proof (mod3_facts.stateToRemainder_range q). lia.
  - left. split; [|done]. intros Hin. apply Hiff in Hin. congruence.
Qed.

(** [TestCalculate_AcceptanceCheck]: "0" leads the restrictive engine to
    S1, which does not accept. *)
Lemma Calculate_on_validated_engine_witness :
  fsm.NewFiniteAutomaton ["S0"; "S1"] ["0"] "S0" ["S0"]
    (fsm.Transitions fixtures.restrictiveFA)
    = (Some fixtures.restrictiveFA, None) /\
  fsm.ValidateInput fixtures.restrictiveFA "0" = true /\
  trimsToEmpty "0" = false /\
  mod3.Calculate {| mod3.fa := fixtures.restrictiveFA |} "0"
    = (-1, Some (ErrNonAccepting "S1")) /\
  exists q,
    fsm.Run fixtures.restrictiveFA "0" = (q, None) /\ q ∈ ["S0"; "S1"] /\
    (((q ∉ ["S0"]) /\
      mod3.Calculate {| mod3.fa := fixtures.restrictiveFA |} "0"
        = (-1, Some (ErrNonAccepting q))) \/
     (q ∈ ["S0"] /\ mod3.stateToRemainder q = -1 /\
      mod3.Calculate {| mod3.fa := fixtures.restrictiveFA |} "0"
        = (-1, Some (ErrUnknownState q))) \/
     (q ∈ ["S0"] /\ 0 <= mod3.stateToRemainder q <= 2 /\
      mod3.Calculate {| mod3.fa := fixtures.restrictiveFA |} "0"
        = (mod3.stateToRemainder q, None))).
Proof.
  split; [reflexivity|]. split; [reflexivity|]. split; [reflexivity|].
  split; [reflexivity|].
  exact (Calculate_on_validated_engine ["S0"; "S1"] ["0"] "S0" ["S0"]
           (fsm.Transitions fixtures.restrictiveFA) fixtures.restrictiveFA "0"
           eq_refl eq_refl eq_refl).
Defined.

(** ** The two validating constructors *)

Module mod3_constructor_facts.

Lemma foldl_insert_unit_lookup (l : list string) (m : gmap string unit) k :
  is_Some (foldl (fun m s => <[s := tt]> m) m l !! k) <->
  k ∈ l \/ is_Some (m !! k).
Proof.
  revert m. induction l as [|x l IH]; intros m; simpl.
  - rewrite elem_of_nil. tauto.
  - rewrite IH, elem_of_cons, lookup_insert_is_Some.
    destruct (decide (x = k)) as [->|Hne]; [tauto|].
    split; [intros [?|[?|[? ?]]] | intros [[?|?]|?]]; auto; congruence.
Qed.

Lemma make_stateSet_lookup l k : is_Some (mod3.make_stateSet l !! k) <-> k ∈ l.
Proof.
  unfold mod3.make_stateSet. rewrite foldl_insert_unit_lookup, lookup_empty.
  split; [intros [?|[? ?]]; [done|discriminate] | auto].
Qed.

(** The two state sets have the same keys. *)
Lemma stateSets_agree states k :
  mod3.make_stateSet states !! k = None <-> fsm.make_set states !! k = None.
Proof.
  rewrite !eq_None_not_Some, make_stateSet_lookup, fsm_facts.make_set_lookup.
  done.
Qed.

Section SameKeys.
Variables (set1 : gmap string unit) (set2 : gmap string bool).
Hypothesis same_keys : forall k, set1 !! k = None <-> set2 !! k = None.

Lemma lookup_cases k :
  (set1 !! k = None /\ set2 !! k = None) \/
  (is_Some (set1 !! k) /\ is_Some (set2 !! k)).
Proof.
  destruct (set1 !! k) eqn:E1, (set2 !! k) eqn:E2; eauto.
  - apply same_keys in E2. congruence.
  - apply same_keys in E1. congruence.
Qed.

Lemma check_accepting_agree l :
  mod3.check_accepting set1 l = fsm.check_accepting set2 l.
Proof.
  induction l as [|x l IH]; simpl; [done|].
  destruct (lookup_cases x) as [[-> ->]|[[? ->] [? ->]]]; done.
Qed.

Lemma check_row_agree s row alphabet :
  mod3.check_row set1 s row alphabet = fsm.check_row set2 s row alphabet.
Proof.
  induction alphabet as [|a alphabet IH]; simpl; [done|].
  destruct (row !! a) as [t|]; [|done].
  destruct (lookup_cases t) as [[-> ->]|[[? ->] [? ->]]]; done.
Qed.

Lemma check_transitions_agree alphabet transitions states :
  mod3.check_transitions set1 alphabet transitions states =
  fsm.check_transitions set2 alphabet transitions states.
Proof.
  induction states as [|s states IH]; simpl; [done|].
  destruct (transitions !! s) as [row|]; [|done].
  rewrite check_row_agree.
  by destruct (fsm.check_row set2 s row alphabet).
Qed.

End SameKeys.

(** The constructor of package mod3, through the one of package fsm. *)
Lemma mod3_constructor_unfold
    states alphabet initialState acceptingStates transitions :
  mod3.NewFiniteAutomaton
    states alphabet initialState acceptingStates transitions =
  match fsm.NewFiniteAutomaton
          states alphabet initialState acceptingStates transitions with
  | (Some _, err) =>
    (Some {| mod3.States := states; mod3.Alphabet := alphabet;
             mod3.InitialState := initialState;
             mod3.AcceptingStates := acceptingStates;
             mod3.Transitions := transitions |}, err)
  | (None, err) => (None, err)
  end.
Proof.
  unfold mod3.NewFiniteAutomaton, fsm.NewFiniteAutomaton.
  rewrite (check_accepting_agree _ _ (stateSets_agree states)).
  rewrite (check_transitions_agree _ _ (stateSets_agree states)).
  destruct (lookup_cases _ _ (stateSets_agree states) initialState)
    as [[-> ->]|[[? ->] [? ->]]]; [done|].
  destruct (fsm.check_accepting (fsm.make_set states) acceptingStates); [done|].
  by destruct (fsm.check_transitions
                 (fsm.make_set states) alphabet transitions states).
Qed.

End mod3_constructor_facts.

(** X6.  The validating constructor of package mod3 and the one of
    package fsm decide alike: on the same arguments they return the same
    error or both succeed.  The automaton of package mod3 keeps the five
    arguments as they are, and the two automata built from the same
    arguments give the same result of [Run] on every input. *)
Theorem mod3_NewFiniteAutomaton_agrees_with_fsm
    (states alphabet : list string) (initialState : string)
    (acceptingStates : list string)
    (transitions : gmap string (gmap string string)) :
  let own :=
    mod3.NewFiniteAutomaton states alphabet initialState acceptingStates transitions in
  let shared :=
    fsm.NewFiniteAutomaton states alphabet initialState acceptingStates transitions in
  snd own = snd shared /\
  ((exists fa', own = (Some fa', None)) <-> (exists fa, shared = (Some fa, None))) /\
  (forall fa', own = (Some fa', None) ->
     fa' = {| mod3.States := states; mod3.Alphabet := alphabet;
              mod3.InitialState := initialState;
              mod3.AcceptingStates := acceptingStates;
              mod3.Transitions := transitions |}) /\
  (forall fa' fa input,
     own = (Some fa', None) -> shared = (Some fa, None) ->
     mod3.Run fa' input = fsm.Run fa input).
Proof.
  intros own shared.
  pose proof (mod3_constructor_facts.mod3_constructor_unfold
                states alphabet initialState acceptingStates transitions) as Hown.
  fold own shared in Hown.
  destruct (fsm_facts.NewFiniteAutomaton_shape
              states alphabet initialState acceptingStates transitions)
    as [[fa Hfa]|[e He]]; fold shared in Hfa || fold shared in He.
  - rewrite Hfa in Hown. rewrite Hown, Hfa. split; [done|].
    split; [split; eauto|]. split.
    + by intros fa' [= <-].
    + intros fa' fa0 input [= <-] [= <-].
      apply fsm_facts.NewFiniteAutomaton_Some in Hfa as (-> & _).
      apply mod3_facts.mod3_Run_same.
  - rewrite He in Hown. rewrite Hown, He. split; [done|].
    split; [split; intros [? ?]; discriminate|]. split.
    + intros fa' ?. discriminate.
    + intros fa' fa0 input ?. discriminate.
Qed.

(** ** More on the modulo-three calculator *)

Module numeral_facts.
Import gostring_facts mod3_facts.

Lemma is_binary_app s t : is_binary (s ++ t) = is_binary s && is_binary t.
Proof.
  induction s as [|c s IH]; simpl; [done|].
  by rewrite IH, andb_assoc.
Qed.

(** The characters of a binary numeral followed by anything. *)
Lemma runes_binary_app pre rest :
  is_binary pre = true -> runes (pre ++ rest) = (runes pre ++ runes rest)%list.
Proof.
  induction pre as [|c pre IH]; [done|].
  simpl is_binary. intros [Hc Hpre]%andb_true_iff.
  apply is_bit_byte in Hc as [Hc Hb].
  change (String c pre ++ rest) with (String c (pre ++ rest)).
  rewrite !runes_ascii by lia. by rewrite IH.
Qed.

Lemma binary_value_from_app a s t :
  binary_value_from a (s ++ t) = binary_value_from (binary_value_from a s) t.
Proof.
  revert a. induction s as [|c s IH]; intros a; simpl; [done|]. apply IH.
Qed.

Lemma len_String c t : len (String c t) = len t + 1.
Proof. unfold len. simpl String.length. lia. Qed.

Lemma len_nonneg t : 0 <= len t.
Proof. unfold len. lia. Qed.

(** Reading on from [a] shifts [a] by the digits read. *)
Lemma binary_value_from_shift a t :
  binary_value_from a t = a * 2 ^ len t + binary_value t.
Proof.
  unfold binary_value. revert a.
  induction t as [|c t IH]; intros a.
  - simpl. unfold len. simpl. lia.
  - simpl binary_value_from.
    rewrite (IH (2 * a + bit_value c)), (IH (2 * 0 + bit_value c)).
    rewrite len_String, Z.pow_add_r by (pose proof (len_nonneg t); lia).
    lia.
Qed.

Lemma binary_value_app s t :
  binary_value (s ++ t) = binary_value s * 2 ^ len t + binary_value t.
Proof.
  unfold binary_value at 1. rewrite binary_value_from_app.
  apply binary_value_from_shift.
Qed.

Lemma mod3_combine a p b :
  (a mod 3 * p + b mod 3) mod 3 = (a * p + b) mod 3.
Proof.
  rewrite Z.add_mod_idemp_r by lia.
  rewrite <- Z.add_mod_idemp_l by lia.
  rewrite Z.mul_mod_idemp_l by lia.
  by rewrite Z.add_mod_idemp_l by lia.
Qed.

Lemma binary_value_zeros k : binary_value (Repeat "0" k) = 0.
Proof.
  unfold binary_value. induction k as [|k IH]; [done|]. exact IH.
Qed.

Lemma is_binary_zeros k : is_binary (Repeat "0" k) = true.
Proof. induction k as [|k IH]; [done|]. exact IH. Qed.

(** [Calculate] of a binary numeral. *)
Lemma Calculate_binary input :
  is_binary input = true ->
  mod3.Calculate the_calculator input = (binary_value input mod 3, None).
Proof.
  intros Hbin.
  assert (0 <= binary_value input mod 3 < 3) as Hrange
    by (apply Z.mod_pos_bound; lia).
  rewrite Calculate_the_calculator.
  destruct (trimsToEmpty input) eqn:Hblank.
  - by rewrite (binary_blank_empty input Hbin Hblank).
  - rewrite Run_binary by done. by rewrite stateToRemainder_state_of.
Qed.

(** An input that is not a binary numeral is one followed by a character
    other than '0' and '1'. *)
Lemma split_at_foreign input :
  is_binary input = false ->
  exists pre rest r more,
    input = pre ++ rest /\ is_binary pre = true /\
    runes rest = r :: more /\ r <> 48 /\ r <> 49.
Proof.
  induction input as [|c s IH]; simpl is_binary; [discriminate|].
  destruct (is_bit c) eqn:Hc; simpl.
  - intros (pre & rest & r & more & -> & Hpre & Hrest & Hne)%IH.
    exists (String c pre), rest, r, more. split; [done|].
    split; [|done]. simpl. by rewrite Hc, Hpre.
  - intros _. exists "", (String c s).
    destruct (Z_lt_le_dec (byte_val c) 128) as [Hlow|Hhigh].
    + exists (byte_val c), (runes s). split; [done|]. split; [done|].
      split; [by apply runes_ascii|]. split; intros E.
      * apply (byte_val_inj c "0") in E. by rewrite E in Hc.
      * apply (byte_val_inj c "1") in E. by rewrite E in Hc.
    + destruct (runes_head_high c s Hhigh) as (r & more & E & Hr).
      exists r, more. repeat split; [done | lia | lia].
Qed.

(** The engine on a binary numeral followed by a foreign character. *)
Lemma Run_prefix_then_foreign pre rest r more :
  is_binary pre = true -> runes rest = r :: more -> r <> 48 -> r <> 49 ->
  fsm.Run the_automaton (pre ++ rest) =
  ("", Some (ErrUnknownSymbol (string_of_rune r)
               (state_of (binary_value pre mod 3)))).
Proof.
  intros Hpre Hrest H0 H1. unfold fsm.Run.
  rewrite runes_binary_app, Hrest by done.
  rewrite (fsm_facts.run_loop_app the_automaton _ (runes pre) (r :: more)
             (state_of (binary_value pre mod 3)))
    by (by apply Run_binary).
  assert (0 <= binary_value pre mod 3 < 3) as Hrange
    by (apply Z.mod_pos_bound; lia).
  destruct (state_of_row _ Hrange) as (x & y & Hrow & _).
  rewrite run_loop_cons.
  change (fsm.Transitions the_automaton)
    with (mod3.Transitions mod3.GetModThreeConfig).
  rewrite Hrow, row_lookup.
  destruct (Z.eqb_spec r 48); [done|]. by destruct (Z.eqb_spec r 49).
Qed.

(** A character is in the alphabet of the modulo-three automaton exactly
    when it is '0' or '1'. *)
Lemma in_alphabet_bit r : in_alphabet the_automaton r <-> r = 48 \/ r = 49.
Proof.
  unfold in_alphabet. change (fsm.Alphabet the_automaton)
    with (fsm.make_set ["0"; "1"]).
  rewrite fsm_facts.make_set_lookup, !elem_of_cons, elem_of_nil.
  rewrite string_of_rune_0, string_of_rune_1. tauto.
Qed.

Lemma ValidateInput_binary input :
  fsm.ValidateInput the_automaton input = is_binary input.
Proof.
  destruct (is_binary input) eqn:Hbin.
  - apply fsm_facts.validate_loop_Forall.
    apply is_binary_runes in Hbin.
    eapply Forall_impl; [exact Hbin|]. intros r Hr. by apply in_alphabet_bit.
  - apply not_true_is_false. intros Hvalid.
    apply fsm_facts.validate_loop_Forall in Hvalid.
    apply not_binary_foreign in Hbin as (r & Hr & H0 & H1).
    rewrite Forall_forall in Hvalid.
    specialize (Hvalid r Hr). apply in_alphabet_bit in Hvalid. lia.
Qed.

End numeral_facts.

(** X7.  On the automaton built from [GetModThreeConfig],
    [ValidateInput] accepts an input exactly when it consists of the
    bytes '0' and '1' only, and exactly when [Run] returns no error on
    it; so for an input that does not trim to the empty string,
    [Calculate] returns an error exactly when [ValidateInput] rejects
    the input. *)
Theorem ValidateInput_agrees_with_Run
    (calc : mod3.ModThreeCalculator fsm.FiniteAutomaton) (input : string) :
  mod3.NewModThreeCalculator mod3.GetModThreeConfig = (Some calc, None) ->
  (fsm.ValidateInput (mod3.fa calc) input = true <-> is_binary input = true) /\
  (fsm.ValidateInput (mod3.fa calc) input = true <->
   snd (fsm.Run (mod3.fa calc) input) = None) /\
  (trimsToEmpty input = false ->
   (fsm.ValidateInput (mod3.fa calc) input = false <->
    snd (mod3.Calculate calc input) <> None)).
Proof.
  intros ->%mod3_facts.NewModThreeCalculator_inv.
  change (mod3.fa the_calculator) with the_automaton.
  rewrite numeral_facts.ValidateInput_binary.
  split; [done|].
  destruct (mod3_facts.Run_outcome input)
    as [(Hbin & m & Hm & Hrun)|(Hbin & sym & q & Hrun)].
  - split.
    + rewrite Hrun, Hbin. done.
    + intros Hblank. rewrite mod3_facts.Calculate_the_calculator, Hblank, Hrun, Hbin.
      simpl. split; [discriminate | done].
  - split.
    + rewrite Hrun, Hbin. simpl. split; discriminate.
    + intros Hblank. rewrite mod3_facts.Calculate_the_calculator, Hblank, Hrun, Hbin.
      simpl. split; done.
Qed.

(** An input with a space inside. *)
Lemma ValidateInput_agrees_with_Run_witness :
  mod3.NewModThreeCalculator mod3.GetModThreeConfig = (Some the_calculator, None) /\
  fsm.ValidateInput the_automaton "10 1" = false /\
  (fsm.ValidateInput the_automaton "10 1" = true <->
   snd (fsm.Run the_automaton "10 1") = None).
Proof.
  split; [reflexivity|]. split; [reflexivity|].
  exact (proj1 (proj2 (ValidateInput_agrees_with_Run the_calculator "10 1" eq_refl))).
Defined.

(** X8.  On the calculator built from [GetModThreeConfig], for binary
    numerals s and t, [Calculate] of s followed by t is
    (r(s) * 2^|t| + r(t)) mod 3 with r the remainder [Calculate] returns;
    appending the digit b to s gives (2 * r(s) + b) mod 3; and leading
    zeros do not change the result. *)
Theorem Calculate_of_concatenation
    (calc : mod3.ModThreeCalculator fsm.FiniteAutomaton) :
  mod3.NewModThreeCalculator mod3.GetModThreeConfig = (Some calc, None) ->
  (forall s t, is_binary s = true -> is_binary t = true ->
     mod3.Calculate calc (s ++ t) =
     ((fst (mod3.Calculate calc s) * 2 ^ len t + fst (mod3.Calculate calc t)) mod 3,
      None)) /\
  (forall s, is_binary s = true ->
     mod3.Calculate calc (s ++ "0")
       = ((2 * fst (mod3.Calculate calc s)) mod 3, None) /\
     mod3.Calculate calc (s ++ "1")
       = ((2 * fst (mod3.Calculate calc s) + 1) mod 3, None)) /\
  (forall k t, is_binary t = true ->
     mod3.Calculate calc (Repeat "0" k ++ t) = mod3.Calculate calc t).
Proof.
  intros ->%mod3_facts.NewModThreeCalculator_inv.
  assert (forall s t, is_binary s = true -> is_binary t = true ->
     mod3.Calculate the_calculator (s ++ t) =
     ((fst (mod3.Calculate the_calculator s) * 2 ^ len t
       + fst (mod3.Calculate the_calculator t)) mod 3, None)) as Hcat.
  { intros s t Hs Ht.
    rewrite !numeral_facts.Calculate_binary
      by (done || by rewrite numeral_facts.is_binary_app, Hs, Ht).
    simpl fst. rewrite numeral_facts.binary_value_app. f_equal.
    symmetry. apply numeral_facts.mod3_combine. }
  split; [exact Hcat|]. split.
  - intros s Hs. split.
    + rewrite (Hcat s "0") by done.
      rewrite (numeral_facts.Calculate_binary "0") by done. simpl fst.
      f_equal. f_equal. change (2 ^ len "0") with 2.
      change (binary_value "0" mod 3) with 0. lia.
    + rewrite (Hcat s "1") by done.
      rewrite (numeral_facts.Calculate_binary "1") by done. simpl fst.
      f_equal. f_equal. change (2 ^ len "1") with 2.
      change (binary_value "1" mod 3) with 1. lia.
  - intros k t Ht.
    rewrite (Hcat (Repeat "0" k) t) by (done || apply numeral_facts.is_binary_zeros).
    rewrite (numeral_facts.Calculate_binary (Repeat "0" k))
      by apply numeral_facts.is_binary_zeros.
    rewrite numeral_facts.binary_value_zeros.
    rewrite (numeral_facts.Calculate_binary t) by done. simpl fst.
    f_equal. change (0 mod 3 * 2 ^ len t) with (0 * 2 ^ len t).
    rewrite Z.mul_0_l, Z.add_0_l. apply Z.mod_mod. lia.
Qed.

(** [TestCalculator_Correctness], case LeadingZeros: "000101". *)
Lemma Calculate_of_concatenation_witness :
  mod3.NewModThreeCalculator mod3.GetModThreeConfig = (Some the_calculator, None) /\
  is_binary "101" = true /\
  mod3.Calculate the_calculator "101" = (2, None) /\
  mod3.Calculate the_calculator (Repeat "0" 3 ++ "101")
    = mod3.Calculate the_calculator "101".
Proof.
  split; [reflexivity|]. split; [reflexivity|]. split; [reflexivity|].
  exact (proj2 (proj2 (Calculate_of_concatenation the_calculator eq_refl))
           3%nat "101" eq_refl).
Defined.

(** X9.  On the calculator built from [GetModThreeConfig], an input
    made of a binary numeral followed by a character other than '0' and
    '1', and not trimming to the empty string, gives -1 and the
    unknown-symbol error that carries that character and the state of
    the numeral's remainder modulo 3.  Every error of [Calculate] on this
    calculator is of this form, with remainder -1: it never returns the
    missing-row, the non-accepting or the unknown-state error. *)
Theorem Calculate_error_names_first_foreign_character
    (calc : mod3.ModThreeCalculator fsm.FiniteAutomaton) :
  mod3.NewModThreeCalculator mod3.GetModThreeConfig = (Some calc, None) ->
  (forall pre rest r more,
     is_binary pre = true -> runes rest = r :: more -> r <> 48 -> r <> 49 ->
     trimsToEmpty (pre ++ rest) = false ->
     mod3.Calculate calc (pre ++ rest) =
     (-1, Some (ErrUnknownSymbol (string_of_rune r)
                  (state_of (binary_value pre mod 3))))) /\
  (forall input remainder e,
     mod3.Calculate calc input = (remainder, Some e) ->
     remainder = -1 /\
     exists pre rest r more,
       input = pre ++ rest /\ is_binary pre = true /\
       runes rest = r :: more /\ r <> 48 /\ r <> 49 /\
       e = ErrUnknownSymbol (string_of_rune r)
             (state_of (binary_value pre mod 3))).
Proof.
  intros ->%mod3_facts.NewModThreeCalculator_inv. split.
  - intros pre rest r more Hpre Hrest H0 H1 Hblank.
    rewrite mod3_facts.Calculate_the_calculator, Hblank.
    by rewrite (numeral_facts.Run_prefix_then_foreign pre rest r more).
  - intros input remainder e.
    rewrite mod3_facts.Calculate_the_calculator.
    destruct (trimsToEmpty input); [discriminate|].
    destruct (mod3_facts.Run_outcome input)
      as [(_ & m & _ & ->)|(Hbin & _)]; [discriminate|].
    apply numeral_facts.split_at_foreign in Hbin
      as (pre & rest & r & more & -> & Hpre & Hrest & H0 & H1).
    rewrite (numeral_facts.Run_prefix_then_foreign pre rest r more) by done.
    intros [= <- <-]. split; [done|].
    exists pre, rest, r, more. repeat split; done.
Qed.

(** [TestCalculator_ErrorPaths], case InvalidSymbol_2: in "1121" the
    prefix "11" is 3, so the engine is in S0 when it meets '2'. *)
Lemma Calculate_error_names_first_foreign_character_witness :
  mod3.NewModThreeCalculator mod3.GetModThreeConfig = (Some the_calculator, None) /\
  is_binary "11" = true /\ runes "21" = [50; 49] /\
  trimsToEmpty ("11" ++ "21") = false /\
  mod3.Calculate the_calculator "1121" = (-1, Some (ErrUnknownSymbol "2" "S0")).
Proof.
  split; [reflexivity|]. split; [reflexivity|]. split; [reflexivity|].
  split; [reflexivity|].
  refine (proj1 (Calculate_error_names_first_foreign_character the_calculator eq_refl)
            "11" "21" 50 [49] eq_refl eq_refl _ _ eq_refl); discriminate.
Defined.

(** The modulo-three configuration, through both constructors. *)
Lemma mod3_NewFiniteAutomaton_agrees_with_fsm_witness :
  mod3.NewFiniteAutomaton ["S0"; "S1"; "S2"] ["0"; "1"] "S0" ["S0"; "S1"; "S2"]
    (mod3.Transitions mod3.GetModThreeConfig) = (Some mod3.ModThreeFA, None) /\
  fsm.NewFiniteAutomaton ["S0"; "S1"; "S2"] ["0"; "1"] "S0" ["S0"; "S1"; "S2"]
    (mod3.Transitions mod3.GetModThreeConfig) = (Some the_automaton, None) /\
  mod3.Run mod3.ModThreeFA "1101" = fsm.Run the_automaton "1101".
Proof.
  split; [reflexivity|]. split; [reflexivity|].
  exact (proj2 (proj2 (proj2 (mod3_NewFiniteAutomaton_agrees_with_fsm
           ["S0"; "S1"; "S2"] ["0"; "1"] "S0" ["S0"; "S1"; "S2"]
           (mod3.Transitions mod3.GetModThreeConfig))))
           mod3.ModThreeFA the_automaton "1101" eq_refl eq_refl).
Defined.

(** X10.  Let an engine behind the interface of package fsm and one
    behind the interface of package mod3 return the same result of [Run]
    on an input.  When [Calculate] returns no error its remainder is the
    result of [modThree].  The two differ only when [Run] ends in a state
    that the engine does not accept and that is one of S0, S1, S2: then
    [Calculate] returns -1 with the non-accepting error, and [modThree],
    which makes no acceptance check, returns the state's remainder. *)
Theorem Calculate_versus_modThree (A B : Type)
    (engine : fsm.Automaton A) (own : mod3.Automaton B)
    (a : A) (b : B) (input : string) :
  fsm.automaton_Run a input = mod3.automaton_Run b input ->
  (snd (mod3.Calculate {| mod3.fa := a |} input) = None ->
   fst (mod3.Calculate {| mod3.fa := a |} input) = mod3.modThree b input) /\
  (fst (mod3.Calculate {| mod3.fa := a |} input) = mod3.modThree b input \/
   exists q,
     fsm.automaton_Run a input = (q, None) /\
     fsm.automaton_IsAccepting a q = false /\
     mod3.Calculate {| mod3.fa := a |} input = (-1, Some (ErrNonAccepting q)) /\
     mod3.modThree b input = mod3.StateToRemainder q /\
     0 <= mod3.modThree b input <= 2).
Proof.
  intros Hrun. rewrite mod3_facts.Calculate_unfold. unfold mod3.modThree.
  destruct (trimsToEmpty input); [by split; [|left]|].
  simpl mod3.fa. rewrite <- Hrun.
  destruct (fsm.automaton_Run a input) as [q [e|]]; [by split; [|left]|].
  destruct (fsm.automaton_IsAccepting a q) eqn:Eacc; simpl negb; cbv iota.
  - change (mod3.StateToRemainder q) with (mod3.stateToRemainder q).
    destruct (Z.eqb_spec (mod3.stateToRemainder q) (-1)) as [E|E]; simpl.
    + split; [discriminate | by left].
    + by split; [|left].
  - split; [discriminate|]. simpl.
    change (mod3.StateToRemainder q) with (mod3.stateToRemainder q).
    destruct (mod3_facts.stateToRemainder_range q) as [E|E].
    + left. by rewrite E.
    + right. exists q. repeat split; done || lia.
Qed.

(** [TestCalculate_AcceptanceCheck]'s engine: "0" ends in S1, which does
    not accept; [Calculate] reports it, [modThree] returns remainder 1. *)
Lemma Calculate_versus_modThree_witness :
  fsm.automaton_Run fixtures.restrictiveFA "0"
    = mod3.automaton_Run fixtures.restrictiveOwnFA "0" /\
  mod3.Calculate {| mod3.fa := fixtures.restrictiveFA |} "0"
    = (-1, Some (ErrNonAccepting "S1")) /\
  mod3.modThree fixtures.restrictiveOwnFA "0" = 1 /\
  (snd (mod3.Calculate {| mod3.fa := fixtures.restrictiveFA |} "0") = None ->
   fst (mod3.Calculate {| mod3.fa := fixtures.restrictiveFA |} "0")
     = mod3.modThree fixtures.restrictiveOwnFA "0").
Proof.
  split; [reflexivity|]. split; [reflexivity|]. split; [reflexivity|].
  exact (proj1 (Calculate_versus_modThree _ _ _ _
                  fixtures.restrictiveFA fixtures.restrictiveOwnFA "0" eq_refl)).
Defined.
